(** * Level generation engine: chain ranking, difficulty, challenge selection

    Shallow embedding of the level generation algorithm of
    [docs/level_generation_algorithm.md] together with the data model of
    [frontend/src/types/index.ts].

    Conventions of the embedding:
    - Python [int] values are [Z]; Python [float] values are exact rationals
      [Q].  Rounding is not modelled: a statement about a score is a
      statement about the exact value of the expression that computes it.
    - A Python exception is a value of [PyError]; a computation that may
      raise returns [result A].
    - The process-wide generator behind [random.choice] is an explicit
      [RandomState] threaded through the code that draws from it.
    - [graph.nodes] is a finite map from node ids to nodes. *)

From Stdlib Require Import QArith Qminmax Qpower ZArith Lia Lqa Sorted.
From stdpp Require Import base option list gmap strings pretty.

Set Warnings "-register-all".
Local Open Scope Z_scope.

(** ** Data model *)

Inductive NodeType := FUNCTION | METHOD | CLASS.

Inductive Difficulty := TUTORIAL | BASIC | INTERMEDIATE | ADVANCED | EXPERT.

Inductive ChallengeType :=
  | MULTIPLE_CHOICE
  | CODE_TRACING
  | FILL_BLANK
  | CODE_COMPLETION
  | DEBUGGING
  | ARCHITECTURE.

Global Instance ChallengeType_eq_dec : EqDecision ChallengeType.
Proof. solve_decision. Defined.

Global Instance Difficulty_eq_dec : EqDecision Difficulty.
Proof. solve_decision. Defined.

(** [Parameter] in the source. *)
Record Param := mkParam {
  param_name : string;
  type_hint : option string;
  default_value : option string
}.

(** [CodeNode] follows the interface of [types/index.ts]; [is_async] and
    [is_generator] are the two flags the algorithm document reads in
    addition.  [depends_on] is read by [calculate_difficulty] but declared by
    no data model: it is [None] on a node that does not carry the
    attribute. *)
Record CodeNode := mkCodeNode {
  id : string;
  name : string;
  node_type : NodeType;
  line_start : Z;
  line_end : Z;
  parameters : list Param;
  return_type : option string;
  decorators : list string;
  calls : list string;
  called_by : list string;
  docstring : option string;
  complexity : Z;
  loc : Z;
  is_async : bool;
  is_generator : bool;
  depends_on : option (list string)
}.

Record CallEdge := mkCallEdge {
  from_node : string;
  to_node : string;
  call_count : Z
}.

Record CallGraph := mkCallGraph {
  nodes : gmap string CodeNode;
  edges : list CallEdge;
  entry_points : list string
}.

(** Structured payloads ([Record<string, any>] on the wire). *)
Inductive Payload :=
  | PNone
  | PBool (b : bool)
  | PInt (z : Z)
  | PStr (s : string)
  | PList (l : list Payload)
  | PDict (fields : list (string * Payload)).

(** [ch_type] is the field [type]. *)
Record Challenge := mkChallenge {
  ch_type : ChallengeType;
  question : Payload;
  answer : Payload
}.

(** [level_id] and [level_name] are the fields [id] and [name]. *)
Record Level := mkLevel {
  level_id : string;
  level_name : string;
  description : string;
  difficulty : Difficulty;
  entry_function : string;
  call_chain : list string;
  code_snippet : string;
  challenges : list Challenge;
  objectives : list string;
  xp_reward : Z;
  estimated_time : Z;
  prerequisites : list string
}.

(** ** Exceptions *)

Inductive PyError :=
  | KeyError (key : string)
  | ZeroDivisionError
  | IndexError
  | AttributeError (attr : string).

Inductive result (A : Type) :=
  | Ok (a : A)
  | Raise (e : PyError).
Arguments Ok {A} a.
Arguments Raise {A} e.

Global Instance result_ret : MRet result := @Ok.
Global Instance result_bind : MBind result := λ A B f r,
  match r with
  | Ok a => f a
  | Raise e => Raise e
  end.
Global Instance result_fmap : FMap result := λ A B f r,
  match r with
  | Ok a => Ok (f a)
  | Raise e => Raise e
  end.

Definition is_Ok {A} (r : result A) : Prop := ∃ a, r = Ok a.

(** ** Python primitives used by the algorithm *)

(** Truthiness of an optional string ([None] and [""] are falsy). *)
Definition truthy_str (s : option string) : bool :=
  match s with
  | Some (String _ _) => true
  | _ => false
  end.

(** Truthiness of a list. *)
Definition truthy_list {A} (l : list A) : bool :=
  match l with
  | [] => false
  | _ :: _ => true
  end.

(** [len(l)] as a Python integer. *)
Definition len {A} (l : list A) : Z := Z.of_nat (length l).

(** [l[:n]] for a Python integer [n]; a negative bound counts from the
    end. *)
Definition slice_to {A} (n : Z) (l : list A) : list A :=
  if n <? 0 then take (Z.to_nat (len l + n)) l else take (Z.to_nat n) l.

(** True division [a / b]. *)
Definition py_div (a b : Q) : result Q :=
  if Qeq_bool b 0 then Raise ZeroDivisionError else Ok (a / b)%Q.

Definition Qltb (a b : Q) : bool := negb (Qle_bool b a).

(** [min(a, b)]: the second argument is returned only when it is strictly
    smaller. *)
Definition py_min (a b : Q) : Q := if Qltb b a then b else a.

(** [graph.nodes[id]] *)
Definition get_node (g : CallGraph) (k : string) : result CodeNode :=
  match nodes g !! k with
  | Some n => Ok n
  | None => Raise (KeyError k)
  end.

(** A comprehension [f(x) for x in l] whose body may raise: elements are
    evaluated left to right and the first exception ends the evaluation. *)
Fixpoint for_each {A B} (f : A → result B) (l : list A) : result (list B) :=
  match l with
  | [] => Ok []
  | x :: rest =>
      y ← f x;
      ys ← for_each f rest;
      Ok (y :: ys)
  end.

(** [graph.nodes[id] for id in chain] *)
Definition chain_nodes (g : CallGraph) (chain : list string) : result (list CodeNode) :=
  for_each (get_node g) chain.

(** [sum(f(x) for x in l)] over integers. *)
Definition sum_Z {A} (f : A → Z) (l : list A) : Z :=
  fold_left (λ acc x, acc + f x) l 0.

(** ** Phase 1: core chain identification *)

(** The loop [for i, node_id in enumerate(chain): score += 40 * (0.7 ** i)],
    started at position [i] with the running [score]. *)
Fixpoint proximity_loop (i : nat) (chain : list string) (score : Q) : Q :=
  match chain with
  | [] => score
  | _ :: rest => proximity_loop (S i) rest (score + 40 * (7 # 10) ^ Z.of_nat i)%Q
  end.

(** Entry point proximity component of the importance score. *)
Definition entry_proximity (chain : list string) : Q := proximity_loop 0 chain 0%Q.

Definition calculate_chain_importance (chain : list string) (g : CallGraph) : result Q :=
  let score := entry_proximity chain in
  ns ← chain_nodes g chain;
  avg_called_by ← py_div (inject_Z (sum_Z (λ n, len (called_by n)) ns)) (inject_Z (len chain));
  let frequency_score := py_min 30 (avg_called_by * 5)%Q in
  let score := (score + frequency_score)%Q in
  avg_complexity ← py_div (inject_Z (sum_Z complexity ns)) (inject_Z (len chain));
  let complexity_score := py_min 20 avg_complexity in
  let score := (score + complexity_score)%Q in
  let documented_nodes := sum_Z (λ n, if truthy_str (docstring n) then 1 else 0) ns in
  ratio ← py_div (inject_Z documented_nodes) (inject_Z (len chain));
  let doc_score := (ratio * 10)%Q in
  let score := (score + doc_score)%Q in
  Ok score.

(** [chains.sort(reverse=True, key=lambda x: x[0])]: a stable sort on the
    score alone, so entries with equal scores keep their list order. *)
Fixpoint insert_desc (x : Q * list string) (l : list (Q * list string)) : list (Q * list string) :=
  match l with
  | [] => [x]
  | y :: l' => if Qltb (fst x) (fst y) then y :: insert_desc x l' else x :: y :: l'
  end.

Definition sort_desc (l : list (Q * list string)) : list (Q * list string) :=
  foldr insert_desc [] l.

Section ChainRanker.

(** [CallGraph.get_call_chain(entry_id, max_depth)]: the chain enumeration
    of the graph object, whose code is outside the algorithm document. *)
Variable get_call_chain : CallGraph → string → nat → list (list string).

(** All candidate chains in enumeration order: entry points in their
    order, and per entry point the order of [get_call_chain]. *)
Definition candidate_chains (g : CallGraph) : list (list string) :=
  concat (map (λ entry_id, get_call_chain g entry_id 5%nat) (entry_points g)).

(** The [(score, chain)] list built by the two nested loops. *)
Definition scored_chains (g : CallGraph) : result (list (Q * list string)) :=
  for_each (λ chain, score ← calculate_chain_importance chain g; Ok (score, chain))
           (candidate_chains g).

Definition identify_core_chains (g : CallGraph) : result (list (list string)) :=
  chains ← scored_chains g;
  let chains := sort_desc chains in
  Ok (map snd (take 10 chains)).

End ChainRanker.

(** ** Phase 2: difficulty scoring *)

(** Body of the abstraction loop for one node. *)
Definition abstraction_step (abstraction_score : Z) (node : CodeNode) : Z :=
  let s1 := if truthy_list (decorators node)
            then abstraction_score + len (decorators node) * 3
            else abstraction_score in
  let s2 := if is_async node then s1 + 5 else s1 in
  if is_generator node then s2 + 5 else s2.

(** [node.depends_on] *)
Definition get_depends_on (node : CodeNode) : result (list string) :=
  match depends_on node with
  | Some deps => Ok deps
  | None => Raise (AttributeError "depends_on")
  end.

Definition calculate_difficulty (chain : list string) (g : CallGraph) : result Difficulty :=
  let score := 0 in
  let length_score := Z.min 20 (len chain * 4) in
  let score := score + length_score in
  ns ← chain_nodes g chain;
  avg_complexity ← py_div (inject_Z (sum_Z complexity ns)) (inject_Z (len chain));
  let complexity_score := py_min 30 (avg_complexity * 2)%Q in
  let score := (inject_Z score + complexity_score)%Q in
  let abstraction_score := fold_left abstraction_step ns 0 in
  let abstraction_score := Z.min 25 abstraction_score in
  let score := (score + inject_Z abstraction_score)%Q in
  deps ← for_each get_depends_on ns;
  let total_deps := sum_Z len deps in
  let dep_score := Z.min 25 (total_deps * 2) in
  let score := (score + inject_Z dep_score)%Q in
  if Qltb score 20 then Ok TUTORIAL
  else if Qltb score 40 then Ok BASIC
  else if Qltb score 60 then Ok INTERMEDIATE
  else if Qltb score 80 then Ok ADVANCED
  else Ok EXPERT.

(** ** Phase 3: challenge type selection *)

(** Modelled from the spec: the Python [Difficulty] enum is missing from the
    sources; its members are totally ordered and compared by rank index. *)
Definition difficulty_rank (d : Difficulty) : Z :=
  match d with
  | TUTORIAL => 0
  | BASIC => 1
  | INTERMEDIATE => 2
  | ADVANCED => 3
  | EXPERT => 4
  end.

Definition difficulty_ge (a b : Difficulty) : bool :=
  difficulty_rank b <=? difficulty_rank a.

Definition select_challenge_types (chain : list string) (d : Difficulty) (g : CallGraph)
  : result (list ChallengeType) :=
  let challenges := [] in
  let challenges := challenges ++ [MULTIPLE_CHOICE] in
  let challenges := if 3 <=? len chain then challenges ++ [CODE_TRACING] else challenges in
  ns ← chain_nodes g chain;
  avg_complexity ← py_div (inject_Z (sum_Z complexity ns)) (inject_Z (len chain));
  let has_decorators := existsb (λ n, truthy_list (decorators n)) ns in
  let has_async := existsb is_async ns in
  let challenges := if has_decorators || difficulty_ge d INTERMEDIATE
                    then challenges ++ [FILL_BLANK] else challenges in
  let challenges := if difficulty_ge d INTERMEDIATE
                    then challenges ++ [CODE_COMPLETION] else challenges in
  let challenges := if Qltb 10 avg_complexity
                    then challenges ++ [DEBUGGING] else challenges in
  let challenges := if difficulty_ge d ADVANCED
                    then challenges ++ [ARCHITECTURE] else challenges in
  Ok (slice_to 5 challenges).

(** ** Phase 4: question generation *)

(** One entry of the [templates] list of [generate_multiple_choice]. *)
Record MCTemplate := mkMCTemplate {
  mc_question : string;
  correct : string;
  distractors : list string
}.

(** Functions the algorithm document calls but does not define.  They are
    pure functions of exactly the arguments the document passes to them.
    [generate_other] stands for the branches elided as [# ... other types]
    in the dispatch of [generate_levels]. *)
Record Collaborators := mkCollaborators {
  generate_plausible_functions : CallGraph → list string;
  create_mc_challenge : MCTemplate → Challenge;
  generate_sample_input : string → CallGraph → Payload;
  compute_value : string → Payload;
  generate_other : ChallengeType → list string → CallGraph → Challenge;
  generate_level_name : list string → Difficulty → string;
  generate_description : list string → CallGraph → string;
  extract_relevant_code : list string → CallGraph → string;
  calculate_xp_reward : Difficulty → Z;
  estimate_time : list Challenge → Z;
  determine_prerequisites : Z → list Level → list string
}.

(** State of the [random] module: the sequence of raw draws and the number
    of draws already consumed. *)
Record RandomState := mkRandomState {
  draws : nat → nat;
  cursor : nat
}.

(** [random.choice(l)] *)
Definition random_choice {A} (l : list A) (st : RandomState) : result (A * RandomState) :=
  match l !! (draws st (cursor st) mod length l)%nat with
  | Some x => Ok (x, mkRandomState (draws st) (S (cursor st)))
  | None => Raise IndexError
  end.

(** [s or d] on an optional string. *)
Definition or_else (s : option string) (d : string) : string :=
  match s with
  | Some (String a r) => String a r
  | _ => d
  end.

(** [l[0]] and [l[-1]] *)
Definition first_item {A} (l : list A) : result A :=
  match l with
  | x :: _ => Ok x
  | [] => Raise IndexError
  end.

Definition last_item {A} (l : list A) : result A :=
  match last l with
  | Some x => Ok x
  | None => Raise IndexError
  end.

Section Generators.

Variable env : Collaborators.

(** The three fact templates: return type, parameter count, first call. *)
Definition mc_templates (node : CodeNode) (g : CallGraph) : list MCTemplate :=
  [ mkMCTemplate
      ("What does " +:+ name node +:+ "() return?")
      (or_else (return_type node) "None")
      ["str"; "dict"; "list"; "object"];
    mkMCTemplate
      ("How many parameters does " +:+ name node +:+ "() accept?")
      (pretty (len (parameters node)))
      (map (λ i, pretty (len (parameters node) + i)) [-1; 1; 2]);
    mkMCTemplate
      ("Which function does " +:+ name node +:+ "() call first?")
      (match calls node with c :: _ => c | [] => "None" end)
      (generate_plausible_functions env g) ].

Definition generate_multiple_choice (node : CodeNode) (g : CallGraph) (st : RandomState)
  : result (Challenge * RandomState) :=
  let templates := mc_templates node g in
  '(template, st) ← random_choice templates st;
  Ok (create_mc_challenge env template, st).

Definition tracing_steps (last_key : string) (last_value : string → Payload)
    (chain : list string) : Payload :=
  PList (imap (λ i node_id,
           PDict [("step", PInt (Z.of_nat i + 1));
                  ("function", PStr node_id);
                  (last_key, last_value node_id)]) chain).

Definition generate_code_tracing (chain : list string) (g : CallGraph) : result Challenge :=
  c0 ← first_item chain;
  cl ← last_item chain;
  let prompt := "Trace the execution from " +:+ c0 +:+ " to " +:+ cl in
  Ok (mkChallenge CODE_TRACING
        (PDict [("prompt", PStr prompt);
                ("input", generate_sample_input env c0 g);
                ("steps", tracing_steps "blank" (λ _, PBool true) chain)])
        (PDict [("steps", tracing_steps "value" (compute_value env) chain)])).

(** ** Phase 5: learning objectives *)

Definition objectives_of_node (node : CodeNode) : list string :=
  (match decorators node with
   | decorator :: _ => ["Understand " +:+ decorator +:+ " decorator pattern"]
   | [] => []
   end)
  ++ (if is_async node then ["Learn async/await pattern"] else [])
  ++ (if 15 <? complexity node then ["Master " +:+ name node +:+ "'s control flow"] else []).

Definition generate_objectives (chain : list string) (g : CallGraph) : result (list string) :=
  ns ← chain_nodes g chain;
  let objectives := concat (map objectives_of_node ns) in
  c0 ← first_item chain;
  cl ← last_item chain;
  let objectives := ("Trace execution from " +:+ c0 +:+ " to " +:+ cl) :: objectives in
  Ok (slice_to 3 objectives).

(** ** Complete level generation flow *)

Section Assembler.

Variable get_call_chain : CallGraph → string → nat → list (list string).

(** [node] is read but never bound inside [generate_levels]; it comes
    from the enclosing scope and is the same for every level. *)
Variable node : CodeNode.

(** Dispatch on the challenge type. *)
Definition generate_challenge (ctype : ChallengeType) (chain : list string)
    (g : CallGraph) (st : RandomState) : result (Challenge * RandomState) :=
  match ctype with
  | MULTIPLE_CHOICE => generate_multiple_choice node g st
  | CODE_TRACING => challenge ← generate_code_tracing chain g; Ok (challenge, st)
  | _ => Ok (generate_other env ctype chain g, st)
  end.

(** The loop [for ctype in challenge_types]. *)
Fixpoint generate_challenges (challenge_types : list ChallengeType) (chain : list string)
    (g : CallGraph) (st : RandomState) : result (list Challenge * RandomState) :=
  match challenge_types with
  | [] => Ok ([], st)
  | ctype :: rest =>
      '(challenge, st) ← generate_challenge ctype chain g st;
      '(challenges, st) ← generate_challenges rest chain g st;
      Ok (challenge :: challenges, st)
  end.

(** Body of the loop over the ranked chains: the level built for the
    chain at position [i], given the levels appended so far. *)
Definition build_level (i : Z) (chain : list string) (g : CallGraph)
    (levels : list Level) (st : RandomState) : result (Level * RandomState) :=
  d ← calculate_difficulty chain g;
  challenge_types ← select_challenge_types chain d g;
  '(challenges, st) ← generate_challenges challenge_types chain g st;
  c0 ← first_item chain;
  objectives ← generate_objectives chain g;
  Ok (mkLevel
        ("level_" +:+ pretty (i + 1))
        (generate_level_name env chain d)
        (generate_description env chain g)
        d
        c0
        chain
        (extract_relevant_code env chain g)
        challenges
        objectives
        (calculate_xp_reward env d)
        (estimate_time env challenges)
        (determine_prerequisites env i levels),
      st).

(** The loop [for i, chain in enumerate(...)], started at index [i] with
    the [levels] appended so far. *)
Fixpoint levels_loop (i : Z) (chains : list (list string)) (g : CallGraph)
    (levels : list Level) (st : RandomState) : result (list Level * RandomState) :=
  match chains with
  | [] => Ok (levels, st)
  | chain :: rest =>
      '(level, st) ← build_level i chain g levels st;
      levels_loop (i + 1) rest g (levels ++ [level]) st
  end.

Definition generate_levels (g : CallGraph) (max_levels : Z) (st : RandomState)
  : result (list Level * RandomState) :=
  core_chains ← identify_core_chains get_call_chain g;
  levels_loop 0 (slice_to max_levels core_chains) g [] st.

End Assembler.

End Generators.

(** ** Chain enumeration of the graph object *)

(** Ids called by node [k]; a node that is not in the graph calls nothing. *)
Definition callees (g : CallGraph) (k : string) : list string :=
  match nodes g !! k with
  | Some n => calls n
  | None => []
  end.

(** Modelled from the spec: [CallGraph.get_call_chain] is missing from the
    sources.  [extend_path] lists the simple paths that extend [visited] by
    [k] and then follow [calls] edges, a path never being extended by a node
    it already contains, with at most [depth] nodes added.  A path is listed
    before its extensions, callees in their stored order. *)
Fixpoint extend_path (g : CallGraph) (depth : nat) (visited : list string) (k : string)
  : list (list string) :=
  match depth with
  | O => []
  | S depth' =>
      if bool_decide (k ∈ visited) then []
      else
        let path := visited ++ [k] in
        path :: flat_map (extend_path g depth' path) (callees g k)
  end.

(** Modelled from the spec: [CallGraph.get_call_chain] is missing from the
    sources.  It enumerates the simple (cycle-free) paths that start at the
    entry point, follow [calls] edges and hold at most [max_depth] nodes. *)
Definition get_call_chain (g : CallGraph) (entry_id : string) (max_depth : nat)
  : list (list string) :=
  extend_path g max_depth [] entry_id.

(** ** Reference formulas *)

(** Sum of [f] over a list, as a mathematical sum. *)
Definition total {A} (f : A → Z) (l : list A) : Z := foldr Z.add 0 (map f l).

(** Arithmetic mean of [f] over a non-empty list. *)
Definition mean {A} (f : A → Z) (l : list A) : Q := (inject_Z (total f l) / inject_Z (len l))%Q.

(** Abstraction points of one node: 3 per decorator, 5 if async, 5 if
    generator. *)
Definition abstraction_points (n : CodeNode) : Z :=
  3 * len (decorators n) + (if is_async n then 5 else 0) + (if is_generator n then 5 else 0).

(** The three capped terms of the difficulty score that depend on the
    chain's nodes alone: length, complexity and abstraction. *)
Definition structural_terms (chain : list string) (ns : list CodeNode) : Q :=
  (Qmin 20 (inject_Z (4 * len chain))
   + Qmin 30 (2 * mean complexity ns)
   + Qmin 25 (inject_Z (total abstraction_points ns)))%Q.

(** The dependency term over the [depends_on] collections of the nodes. *)
Definition dependency_term (deps : list (list string)) : Q :=
  Qmin 25 (inject_Z (2 * total len deps)).

(** The difficulty score as the sum of the four capped terms. *)
Definition difficulty_score_formula (chain : list string) (ns : list CodeNode)
    (deps : list (list string)) : Q :=
  (structural_terms chain ns + dependency_term deps)%Q.

(** The score bands of the five tiers. *)
Definition in_tier (d : Difficulty) (score : Q) : Prop :=
  match d with
  | TUTORIAL => (score < 20)%Q
  | BASIC => (20 <= score ∧ score < 40)%Q
  | INTERMEDIATE => (40 <= score ∧ score < 60)%Q
  | ADVANCED => (60 <= score ∧ score < 80)%Q
  | EXPERT => (80 <= score)%Q
  end.

(** The score held by [calculate_difficulty] when it reaches its final
    [if]/[elif] ladder, and the ladder itself. *)
Definition accumulated_score (chain : list string) (ns : list CodeNode)
    (deps : list (list string)) : Q :=
  (inject_Z (0 + Z.min 20 (len chain * 4))
   + py_min 30 (inject_Z (sum_Z complexity ns) / inject_Z (len chain) * 2)
   + inject_Z (Z.min 25 (fold_left abstraction_step ns 0%Z))
   + inject_Z (Z.min 25 (sum_Z len deps * 2)))%Q.

Definition score_ladder (score : Q) : Difficulty :=
  if Qltb score 20 then TUTORIAL
  else if Qltb score 40 then BASIC
  else if Qltb score 60 then INTERMEDIATE
  else if Qltb score 80 then ADVANCED
  else EXPERT.

(** The sum of [40 * 0.7^i] for [i] from [0] to [n - 1]. *)
Definition geometric_sum (n : nat) : Q :=
  foldr Qplus 0%Q (map (λ i, 40 * (7 # 10) ^ Z.of_nat i)%Q (seq 0 n)).

(** [a] is ranked no later than [b] by score. *)
Definition score_ge (a b : Q * list string) : Prop := (fst b <= fst a)%Q.

(** The entries of a list whose score equals [s], in list order. *)
Definition with_score (s : Q) (l : list (Q * list string)) : list (Q * list string) :=
  List.filter (λ p, Qeq_bool (fst p) s) l.

(** Projection of a level onto the fields that are computed without looking
    at the generated challenges. *)
Definition level_outline (l : Level)
  : string * string * string * Difficulty * string * list string * string * list string * Z :=
  (level_id l, level_name l, description l, difficulty l, entry_function l,
   call_chain l, code_snippet l, objectives l, xp_reward l).

(** A multiple-choice challenge made from one of the templates of [node]. *)
Definition mc_variant (env : Collaborators) (node : CodeNode) (g : CallGraph)
    (c : Challenge) : Prop :=
  ∃ t, t ∈ mc_templates env node g ∧ c = create_mc_challenge env t.

(** Two challenges agree when they are equal or are both multiple-choice
    challenges made from templates of [node]. *)
Definition challenge_agree (env : Collaborators) (node : CodeNode) (g : CallGraph)
    (c1 c2 : Challenge) : Prop :=
  c1 = c2 ∨ (mc_variant env node g c1 ∧ mc_variant env node g c2).

(** Two levels agree when their outlines are equal and their challenges
    agree position by position. *)
Definition level_agree (env : Collaborators) (node : CodeNode) (g : CallGraph)
    (l1 l2 : Level) : Prop :=
  level_outline l1 = level_outline l2
  ∧ Forall2 (challenge_agree env node g) (challenges l1) (challenges l2).

(** Two runs of a randomised computation agree up to [R] when both raise
    the same exception or both return, with results related by [R]. *)
Definition agree_result {A} (R : A → A → Prop) (r1 r2 : result (A * RandomState)) : Prop :=
  match r1, r2 with
  | Ok (a1, _), Ok (a2, _) => R a1 a2
  | Raise e1, Raise e2 => e1 = e2
  | _, _ => False
  end.

(** A level carries the tier of its chain and one challenge per type
    selected for that chain and tier. *)
Definition level_follows_selection (g : CallGraph) (l : Level) : Prop :=
  ∃ types,
    calculate_difficulty (call_chain l) g = Ok (difficulty l)
    ∧ select_challenge_types (call_chain l) (difficulty l) g = Ok types
    ∧ length (challenges l) = length types.

(** ** Sample inputs *)

(** A function without parameters, calls, decorators, docstring or
    dependencies. *)
Definition plain_node (k : string) : CodeNode :=
  mkCodeNode k k FUNCTION 1 2 [] None [] [] [] None 1 2 false false (Some []).

(** Entry point [f] alone. *)
Definition graph_f : CallGraph :=
  mkCallGraph {[ "f" := plain_node "f" ]} [] ["f"].

(** Two isolated entry points, listed as [b] then [a]. *)
Definition graph_b_a : CallGraph :=
  mkCallGraph (<[ "a" := plain_node "a" ]> {[ "b" := plain_node "b" ]}) [] ["b"; "a"].

(** Entry point [x] calls [z], which calls the second entry point [y].  The
    chains [x; z] and [y] both score 75 points. *)
Definition node_x : CodeNode :=
  mkCodeNode "x" "x" FUNCTION 1 9 [] None [] ["z"] [] None 4 9 false false (Some []).
Definition node_z : CodeNode :=
  mkCodeNode "z" "z" FUNCTION 10 19 [] None [] ["y"] ["x"] None 5 10 false false (Some []).
Definition node_y : CodeNode :=
  mkCodeNode "y" "y" FUNCTION 20 59 [] None [] [] ["z"] (Some "Dispatch a request") 20 40
             false false (Some []).
Definition graph_x_z_y : CallGraph :=
  mkCallGraph (<[ "x" := node_x ]> (<[ "z" := node_z ]> {[ "y" := node_y ]}))
              [mkCallEdge "x" "z" 1; mkCallEdge "z" "y" 1] ["x"; "y"].

(** Mutual recursion: [a] calls [b] and [b] calls [a]. *)
Definition node_a_calls_b : CodeNode :=
  mkCodeNode "a" "a" FUNCTION 1 2 [] None [] ["b"] ["b"] None 1 2 false false (Some []).
Definition node_b_calls_a : CodeNode :=
  mkCodeNode "b" "b" FUNCTION 3 4 [] None [] ["a"] ["a"] None 1 2 false false (Some []).
Definition graph_cycle : CallGraph :=
  mkCallGraph (<[ "a" := node_a_calls_b ]> {[ "b" := node_b_calls_a ]})
              [mkCallEdge "a" "b" 1; mkCallEdge "b" "a" 1] ["a"].

(** A function declared to return [str]. *)
Definition node_returns_str : CodeNode :=
  mkCodeNode "g" "g" FUNCTION 1 2 [] (Some "str") [] [] [] None 1 2 false false (Some []).

(** A node that carries no [depends_on] attribute, as a node built from the
    declared data model. *)
Definition node_without_deps : CodeNode :=
  mkCodeNode "h" "h" FUNCTION 1 2 [] None [] [] [] None 1 2 false false None.
Definition graph_h : CallGraph :=
  mkCallGraph {[ "h" := node_without_deps ]} [] ["h"].

(** A decorated coroutine with two dependencies. *)
Definition node_decorated : CodeNode :=
  mkCodeNode "r" "route" METHOD 10 30 [mkParam "self" None None] None ["app.route"; "cache"]
             [] [] (Some "Register a route") 12 20 true false (Some ["werkzeug"; "typing"]).
Definition graph_r : CallGraph :=
  mkCallGraph {[ "r" := node_decorated ]} [] ["r"].

(** A concrete choice of the collaborators, to run the flow on the sample
    graphs.  A multiple-choice challenge lists the correct answer followed
    by the distractors. *)
Definition sample_create_mc_challenge (t : MCTemplate) : Challenge :=
  mkChallenge MULTIPLE_CHOICE
    (PDict [("question", PStr (mc_question t));
            ("options", PList (map PStr (correct t :: distractors t)))])
    (PDict [("correct", PStr (correct t))]).

Definition sample_env : Collaborators :=
  mkCollaborators
    (λ g, take 3 (map fst (map_to_list (nodes g))))
    sample_create_mc_challenge
    (λ _ _, PNone)
    (λ node_id, PStr node_id)
    (λ ctype _ _, mkChallenge ctype PNone PNone)
    (λ chain _, default "" (head chain))
    (λ _ _, "")
    (λ _ _, "")
    (λ d, 50 * (difficulty_rank d + 1))
    (λ challenges, 5 * len challenges)
    (λ i levels, match last levels with Some l => [level_id l] | None => [] end).

(** A generator state whose [k]-th draw is [k]. *)
Definition counting_state : RandomState := mkRandomState (λ k, k) 0.

(** ** Phase 5: progressive hints *)

(** [s[:n]] on a string. *)
Fixpoint str_take (n : nat) (s : string) : string :=
  match n, s with
  | S n', String c rest => String c (str_take n' rest)
  | _, _ => EmptyString
  end.

(** [generate_hints(challenge, node)]; the challenge is not read. *)
Definition generate_hints (challenge : Challenge) (node : CodeNode) : list string :=
  let hints := [] in
  let hints :=
    match docstring node with
    | Some (String c rest) =>
        hints ++ ["Check the docstring: " +:+ str_take 100 (String c rest) +:+ "..."]
    | _ => hints
    end in
  let hints :=
    match calls node with
    | called :: _ => hints ++ ["This function calls " +:+ called]
    | [] => hints
    end in
  let hints :=
    hints ++ ["Look at lines " +:+ pretty (line_start node) +:+ "-" +:+ pretty (line_end node)] in
  hints.

(** ** Reading structured payloads *)

(** [p[key]] on a dictionary payload. *)
Definition dict_get (key : string) (p : Payload) : option Payload :=
  match p with
  | PDict fields => snd <$> List.find (λ kv, String.eqb (fst kv) key) fields
  | _ => None
  end.

(** The steps listed under ["steps"] in a question or answer payload. *)
Definition steps_of (p : Payload) : list Payload :=
  match dict_get "steps" p with
  | Some (PList steps) => steps
  | _ => []
  end.

(** ** Display helpers of the front end ([utils/index.ts]) *)

(** The whole numbers a JavaScript number holds exactly and prints in
    decimal notation ([Number.isSafeInteger]). *)
Definition safe_integer (z : Z) : Prop := - 2 ^ 53 < z < 2 ^ 53.

(** [formatTime(seconds)] for a whole number of seconds in the safe range.
    [Math.floor(a / b)] is [a / b] and [a % b] is the truncating
    remainder. *)
Definition formatTime (seconds : Z) : string :=
  if seconds <? 60 then pretty seconds +:+ "s"
  else
    let minutes := seconds / 60 in
    let remainingSeconds := Z.rem seconds 60 in
    if minutes <? 60 then pretty minutes +:+ "m " +:+ pretty remainingSeconds +:+ "s"
    else
      let hours := minutes / 60 in
      let remainingMinutes := Z.rem minutes 60 in
      pretty hours +:+ "h " +:+ pretty remainingMinutes +:+ "m".

(** What a property read on an object literal yields: one of its own string
    values, or a member inherited from [Object.prototype]. *)
Inductive JsValue :=
  | JsString (s : string)
  | JsInherited (key : string).

(** The [colors] table of [getDifficultyColor]. *)
Definition difficulty_colors : gmap string string :=
  list_to_map
    [("TUTORIAL", "bg-gray-100 text-gray-700 dark:bg-gray-700 dark:text-gray-300");
     ("BASIC", "bg-green-100 text-green-700 dark:bg-green-900 dark:text-green-300");
     ("INTERMEDIATE", "bg-blue-100 text-blue-700 dark:bg-blue-900 dark:text-blue-300");
     ("ADVANCED", "bg-orange-100 text-orange-700 dark:bg-orange-900 dark:text-orange-300");
     ("EXPERT", "bg-red-100 text-red-700 dark:bg-red-900 dark:text-red-300")].

(** [table[key]]: an own entry first, then the members every object
    inherits, whose names are [object_prototype]; otherwise [undefined]. *)
Definition js_get (object_prototype : gset string) (table : gmap string string)
    (key : string) : option JsValue :=
  match table !! key with
  | Some v => Some (JsString v)
  | None => if bool_decide (key ∈ object_prototype) then Some (JsInherited key) else None
  end.

(** Truthiness: the empty string is falsy, inherited members are functions
    or objects. *)
Definition js_truthy (v : JsValue) : bool :=
  match v with
  | JsString EmptyString => false
  | _ => true
  end.

(** [colors[difficulty] || colors.BASIC] *)
Definition getDifficultyColor (object_prototype : gset string) (difficulty : string)
  : option JsValue :=
  match js_get object_prototype difficulty_colors difficulty with
  | Some v => if js_truthy v then Some v else js_get object_prototype difficulty_colors "BASIC"
  | None => js_get object_prototype difficulty_colors "BASIC"
  end.

(** The string value of a [Difficulty] member. *)
Definition difficulty_name (d : Difficulty) : string :=
  match d with
  | TUTORIAL => "TUTORIAL"
  | BASIC => "BASIC"
  | INTERMEDIATE => "INTERMEDIATE"
  | ADVANCED => "ADVANCED"
  | EXPERT => "EXPERT"
  end.

(** [getProgressColor(percentage)] *)
Definition getProgressColor (percentage : Q) : string :=
  if Qle_bool 90 percentage then "bg-green-500"
  else if Qle_bool 70 percentage then "bg-blue-500"
  else if Qle_bool 50 percentage then "bg-yellow-500"
  else "bg-orange-500".

(** The [percentage] computed by the [ProgressBar] component:
    [max > 0 ? Math.min(100, (current / max) * 100) : 0]. *)
Definition progress_percentage (current max : Q) : Q :=
  if Qltb 0 max then Qmin 100 (current / max * 100) else 0.

(** The colour class the [ProgressBar] gives its bar. *)
Definition progress_bar_color (current max : Q) : string :=
  getProgressColor (progress_percentage current max).

(** ** Further sample inputs *)

(** A graph with a node but no entry point. *)
Definition graph_no_entry : CallGraph :=
  mkCallGraph {[ "f" := plain_node "f" ]} [] [].

(** Eleven isolated entry points [e0] ... [e10]; [ei] has complexity [i]. *)
Definition numbered_node (i : nat) : CodeNode :=
  mkCodeNode ("e" +:+ pretty i) ("e" +:+ pretty i) FUNCTION 1 2 [] None [] [] [] None
             (Z.of_nat i) 2 false false (Some []).
Definition graph_eleven : CallGraph :=
  mkCallGraph (list_to_map (map (λ i, ("e" +:+ pretty i, numbered_node i)) (seq 0 11)))
              [] (map (λ i, "e" +:+ pretty i) (seq 0 11)).

(** A pipeline of five functions, each calling the next; the second one is
    decorated and the third one is a coroutine. *)
Definition pipeline_node (k : string) (callee caller : list string) (decos : list string)
    (async : bool) : CodeNode :=
  mkCodeNode k k FUNCTION 1 20 [] None decos callee caller (Some "Stage of the pipeline")
             12 20 async false (Some []).
Definition graph_pipeline : CallGraph :=
  mkCallGraph
    (list_to_map
       [("p1", pipeline_node "p1" ["p2"] [] [] false);
        ("p2", pipeline_node "p2" ["p3"] ["p1"] ["cached"] false);
        ("p3", pipeline_node "p3" ["p4"] ["p2"] [] true);
        ("p4", pipeline_node "p4" ["p5"] ["p3"] [] false);
        ("p5", pipeline_node "p5" [] ["p4"] [] false)])
    [mkCallEdge "p1" "p2" 1; mkCallEdge "p2" "p3" 1; mkCallEdge "p3" "p4" 1;
     mkCallEdge "p4" "p5" 1]
    ["p1"].
Definition pipeline_chain : list string := ["p1"; "p2"; "p3"; "p4"; "p5"].
Definition pipeline_nodes : list CodeNode :=
  [pipeline_node "p1" ["p2"] [] [] false;
   pipeline_node "p2" ["p3"] ["p1"] ["cached"] false;
   pipeline_node "p3" ["p4"] ["p2"] [] true;
   pipeline_node "p4" ["p5"] ["p3"] [] false;
   pipeline_node "p5" [] ["p4"] [] false].

(** The six challenge types in the order in which the selector considers
    them. *)
Definition selection_order : list ChallengeType :=
  [MULTIPLE_CHOICE; CODE_TRACING; FILL_BLANK; CODE_COMPLETION; DEBUGGING; ARCHITECTURE].

(** Whether the strings of a list are pairwise different. *)
Fixpoint distinct_strings (l : list string) : bool :=
  match l with
  | [] => true
  | x :: rest => negb (existsb (String.eqb x) rest) && distinct_strings rest
  end.

(** The displays of all durations below one hour, in order. *)
Definition displays_below_one_hour : list string :=
  map (λ k, formatTime (Z.of_nat k)) (seq 0 3600).

(** * Properties *)

(** ** Python primitives *)

Lemma Qltb_lt (a b : Q) : Qltb a b = true ↔ (a < b)%Q.
Proof.
  unfold Qltb. rewrite negb_true_iff, <- not_true_iff_false, Qle_bool_iff.
  split; [apply Qnot_le_lt | apply Qlt_not_le].
Qed.

Lemma Qltb_ge (a b : Q) : Qltb a b = false ↔ (b <= a)%Q.
Proof. unfold Qltb. rewrite negb_false_iff. apply Qle_bool_iff. Qed.

Lemma py_min_Qmin (a b : Q) : (py_min a b == Qmin a b)%Q.
Proof.
  unfold py_min. destruct (Qltb b a) eqn:Hc.
  - apply Qltb_lt in Hc. symmetry. apply Q.min_r. by apply Qlt_le_weak.
  - apply Qltb_ge in Hc. symmetry. by apply Q.min_l.
Qed.

Lemma inject_Z_min (a b : Z) : (inject_Z (Z.min a b) == Qmin (inject_Z a) (inject_Z b))%Q.
Proof.
  destruct (Z.le_ge_cases a b) as [Hab | Hab].
  - rewrite Z.min_l by done. symmetry. apply Q.min_l. by rewrite <- Zle_Qle.
  - rewrite Z.min_r by done. symmetry. apply Q.min_r. by rewrite <- Zle_Qle.
Qed.

Lemma sum_Z_acc {A} (f : A → Z) (l : list A) (acc : Z) :
  fold_left (λ acc x, acc + f x) l acc = acc + total f l.
Proof.
  revert acc. induction l as [| x l IH]; intros acc; simpl.
  - unfold total. simpl. lia.
  - rewrite IH. unfold total. simpl. lia.
Qed.

Lemma sum_Z_total {A} (f : A → Z) (l : list A) : sum_Z f l = total f l.
Proof. unfold sum_Z. rewrite sum_Z_acc. lia. Qed.

Lemma total_nonneg {A} (f : A → Z) (l : list A) :
  (∀ x, 0 <= f x) → 0 <= total f l.
Proof.
  intros Hf. unfold total. induction l as [| x l IH]; simpl; [lia |].
  specialize (Hf x). lia.
Qed.

Lemma len_nonneg {A} (l : list A) : 0 <= len l.
Proof. unfold len. lia. Qed.

Lemma py_div_nonzero (a : Q) (n : Z) :
  n ≠ 0 → py_div a (inject_Z n) = Ok (a / inject_Z n)%Q.
Proof.
  intros Hn. unfold py_div.
  destruct (Qeq_bool (inject_Z n) 0) eqn:Hz; [| done].
  apply Qeq_bool_eq in Hz. change 0%Q with (inject_Z 0) in Hz.
  apply (proj1 (inject_Z_injective n 0)) in Hz. contradiction.
Qed.

Lemma len_nonempty {A} (l : list A) : l ≠ [] → len l ≠ 0.
Proof. destruct l; [done |]. unfold len. simpl. lia. Qed.

Lemma for_each_length {A B} (f : A → result B) (l : list A) (ys : list B) :
  for_each f l = Ok ys → length ys = length l.
Proof.
  revert ys. induction l as [| x l IH]; intros ys; simpl.
  - by intros [= <-].
  - destruct (f x) as [y | e]; simpl; [| done].
    destruct (for_each f l) as [ys' | e]; simpl; [| done].
    intros [= <-]. simpl. f_equal. by apply IH.
Qed.

Lemma for_each_Forall2 {A B} (f : A → result B) (l : list A) (ys : list B) :
  for_each f l = Ok ys ↔ Forall2 (λ x y, f x = Ok y) l ys.
Proof.
  revert ys. induction l as [| x l IH]; intros ys; simpl.
  - split; [intros [= <-]; constructor | by inversion 1].
  - split.
    + destruct (f x) as [y | e] eqn:Hx; simpl; [| done].
      destruct (for_each f l) as [ys' | e] eqn:Hl; simpl; [| done].
      intros [= <-]. constructor; [done |]. by apply IH.
    + inversion 1 as [| ? y ? ys' Hx Hl]; subst.
      rewrite Hx. simpl. apply IH in Hl. rewrite Hl. done.
Qed.

(** ** Chain enumeration *)

Lemma extend_path_spec (g : CallGraph) (depth : nat) :
  ∀ (visited : list string) (k : string) (chain : list string),
    NoDup visited →
    chain ∈ extend_path g depth visited k →
    chain ≠ [] ∧ NoDup chain ∧ visited `prefix_of` chain
    ∧ (length chain ≤ length visited + depth)%nat.
Proof.
  induction depth as [| depth IH]; intros visited k chain Hnd; simpl.
  - by intros ?%elem_of_nil.
  - case_bool_decide as Hin; [by intros ?%elem_of_nil |].
    assert (NoDup (visited ++ [k])) as Hnd'.
    { apply NoDup_app. repeat split; [done | | apply NoDup_singleton].
      intros x Hx ->%list_elem_of_singleton. done. }
    intros [-> | Hrec]%elem_of_cons.
    + repeat split; [by destruct visited | done | by apply prefix_app_r |].
      rewrite length_app. simpl. lia.
    + apply list_elem_of_In, in_flat_map in Hrec as (c & _ & Hc).
      apply list_elem_of_In in Hc.
      destruct (IH _ _ _ Hnd' Hc) as (Hne & Hnd'' & Hpre & Hlen).
      repeat split; [done | done | |].
      * etrans; [| exact Hpre]. by apply prefix_app_r.
      * rewrite length_app in Hlen. simpl in Hlen. lia.
Qed.

(** C9. Chain enumeration is a total function of the graph, the entry point
    and the depth bound (also on cyclic graphs), and every chain it lists is
    non-empty, repeats no node id and has at most [max_depth] nodes; with the
    default depth of the ranker that is at most 5 nodes. *)
Theorem chain_enumeration_simple_bounded (g : CallGraph) (entry_id : string) (max_depth : nat) :
  Forall (λ chain, chain ≠ [] ∧ NoDup chain ∧ (length chain ≤ max_depth)%nat)
         (get_call_chain g entry_id max_depth)
  ∧ Forall (λ chain, chain ≠ [] ∧ NoDup chain ∧ (length chain ≤ 5)%nat)
           (candidate_chains get_call_chain g).
Proof.
  assert (∀ e d, Forall (λ chain, chain ≠ [] ∧ NoDup chain ∧ (length chain ≤ d)%nat)
                        (get_call_chain g e d)) as Hone.
  { intros e d. apply Forall_forall. intros chain Hin.
    destruct (extend_path_spec g d [] e chain (NoDup_nil_2) Hin) as (? & ? & _ & ?).
    done. }
  split; [apply Hone |].
  unfold candidate_chains. apply Forall_concat, Forall_map, Forall_forall.
  intros e _. apply Hone.
Qed.

(** Scenario C: [a] calls [b] and [b] calls [a]. *)
Example chain_enumeration_cycle :
  get_call_chain graph_cycle "a" 5 = [["a"]; ["a"; "b"]].
Proof. vm_compute. reflexivity. Qed.

(** ** Entry point proximity *)

Lemma proximity_loop_sum (chain : list string) :
  ∀ (i : nat) (score : Q),
    (proximity_loop i chain score
     == score + foldr Qplus 0 (map (λ i, 40 * (7 # 10) ^ Z.of_nat i) (seq i (length chain))))%Q.
Proof.
  induction chain as [| k chain IH]; intros i score;
    cbn [proximity_loop length seq map foldr].
  - ring.
  - rewrite IH. ring.
Qed.

Lemma entry_proximity_geometric (chain : list string) :
  (entry_proximity chain == geometric_sum (length chain))%Q.
Proof. unfold entry_proximity, geometric_sum. rewrite proximity_loop_sum. ring. Qed.

Lemma geometric_tail_nonneg (n : nat) :
  ∀ i, (0 <= foldr Qplus 0 (map (λ i, 40 * (7 # 10) ^ Z.of_nat i) (seq i n)))%Q.
Proof.
  induction n as [| n IH]; intros i; cbn [seq map foldr]; [apply Qle_refl |].
  specialize (IH (S i)).
  assert (0 <= 40 * (7 # 10) ^ Z.of_nat i)%Q as Hterm.
  { apply Qmult_le_0_compat; [done |]. by apply Qpower_0_le. }
  lra.
Qed.

(** C4. The entry-proximity component is the sum of [40 * 0.7^i] over the
    positions of the chain, and that sum is not capped: for every chain with
    two or more nodes it is at least 68 points, above the 40-point budget. *)
Theorem entry_proximity_exceeds_budget (chain : list string) :
  (2 ≤ length chain)%nat →
  (entry_proximity chain == geometric_sum (length chain))%Q
  ∧ (68 <= entry_proximity chain)%Q
  ∧ (40 < entry_proximity chain)%Q.
Proof.
  intros Hlen. split; [apply entry_proximity_geometric |].
  assert (68 <= entry_proximity chain)%Q as H68.
  { rewrite entry_proximity_geometric.
    destruct chain as [| a [| b rest]]; simpl in Hlen; [lia | lia |].
    unfold geometric_sum. cbn [length seq map foldr].
    pose proof (geometric_tail_nonneg (length rest) 2) as Htail.
    set (tail := foldr Qplus 0%Q _) in *.
    clearbody tail.
    assert ((7 # 10) ^ Z.of_nat 0 == 1)%Q as -> by reflexivity.
    assert ((7 # 10) ^ Z.of_nat 1 == 7 # 10)%Q as -> by reflexivity.
    lra. }
  split; [exact H68 |].
  lra.
Qed.

Lemma entry_proximity_exceeds_budget_witness :
  (2 ≤ length ["a"; "b"])%nat
  ∧ (entry_proximity ["a"; "b"] == geometric_sum 2)%Q
  ∧ (68 <= entry_proximity ["a"; "b"])%Q
  ∧ (40 < entry_proximity ["a"; "b"])%Q.
Proof.
  split; [simpl; lia |].
  apply (entry_proximity_exceeds_budget ["a"; "b"]). simpl. lia.
Defined.

(** A single-node chain scores exactly the 40 points of its entry. *)
Example entry_proximity_single : (entry_proximity ["f"] == 40)%Q.
Proof. vm_compute. reflexivity. Qed.

(** The two-node chain of the cyclic sample graph scores 68 points. *)
Example entry_proximity_pair : (entry_proximity ["a"; "b"] == 68)%Q.
Proof. vm_compute. reflexivity. Qed.

(** ** Ranking order *)

Lemma insert_desc_Forall (P : Q * list string → Prop) x l :
  P x → Forall P l → Forall P (insert_desc x l).
Proof.
  intros Hx Hl. induction Hl as [| y l Hy Hl IH]; simpl.
  - by constructor.
  - destruct (Qltb (fst x) (fst y)); repeat constructor; done.
Qed.

Lemma insert_desc_sorted x l :
  StronglySorted score_ge l → StronglySorted score_ge (insert_desc x l).
Proof.
  induction 1 as [| y l Hl IH Hy]; simpl.
  - repeat constructor.
  - destruct (Qltb (fst x) (fst y)) eqn:Hc.
    + apply Qltb_lt in Hc. constructor; [done |].
      apply insert_desc_Forall; [| done].
      unfold score_ge. by apply Qlt_le_weak.
    + apply Qltb_ge in Hc. constructor; [by constructor |].
      constructor; [done |].
      eapply Forall_impl; [exact Hy |].
      unfold score_ge. intros z Hz. by apply Qle_trans with (fst y).
Qed.

Lemma sort_desc_sorted l : StronglySorted score_ge (sort_desc l).
Proof.
  induction l as [| x l IH]; simpl; [constructor |]. by apply insert_desc_sorted.
Qed.

Lemma insert_desc_with_score s x l :
  with_score s (insert_desc x l) = with_score s (x :: l).
Proof.
  induction l as [| y l IH]; [done |].
  cbn [insert_desc]. destruct (Qltb (fst x) (fst y)) eqn:Hc; [| done].
  apply Qltb_lt in Hc.
  unfold with_score in *. cbn [List.filter] in *. rewrite IH.
  destruct (Qeq_bool (fst x) s) eqn:Hx; [| done].
  destruct (Qeq_bool (fst y) s) eqn:Hy; [| done].
  apply Qeq_bool_eq in Hx, Hy. rewrite Hx, Hy in Hc.
  by apply Qlt_irrefl in Hc.
Qed.

Lemma sort_desc_stable s l : with_score s (sort_desc l) = with_score s l.
Proof.
  induction l as [| x l IH]; [done |].
  cbn [sort_desc foldr]. fold (sort_desc l).
  rewrite insert_desc_with_score. unfold with_score in *. cbn [List.filter].
  by rewrite IH.
Qed.

Lemma sort_desc_perm l : sort_desc l ≡ₚ l.
Proof.
  induction l as [| x l IH]; [done |].
  cbn [sort_desc foldr]. fold (sort_desc l).
  rewrite <- IH at 2. clear IH.
  induction (sort_desc l) as [| y l' IH']; [done |].
  cbn [insert_desc]. destruct (Qltb (fst x) (fst y)); [| done].
  rewrite IH'. apply Permutation_swap.
Qed.

(** C5. The ranker sorts on the score alone: its result is the first ten
    chains of the candidate list arranged by descending score, and chains
    whose scores are equal stay in the order in which they were enumerated.
    Neither length nor node ids take part in the ordering. *)
Theorem identify_core_chains_order
    (enum : CallGraph → string → nat → list (list string))
    (g : CallGraph) (chains : list (Q * list string)) :
  scored_chains enum g = Ok chains →
  ∃ ranked,
    identify_core_chains enum g = Ok (map snd (take 10 ranked))
    ∧ ranked ≡ₚ chains
    ∧ StronglySorted score_ge ranked
    ∧ ∀ s, with_score s ranked = with_score s chains.
Proof.
  intros Hs. exists (sort_desc chains). repeat split.
  - unfold identify_core_chains. rewrite Hs. done.
  - apply sort_desc_perm.
  - apply sort_desc_sorted.
  - intros s. apply sort_desc_stable.
Qed.

Lemma identify_core_chains_order_witness :
  ∃ chains,
    scored_chains get_call_chain graph_b_a = Ok chains
    ∧ ∃ ranked,
        identify_core_chains get_call_chain graph_b_a = Ok (map snd (take 10 ranked))
        ∧ ranked ≡ₚ chains
        ∧ StronglySorted score_ge ranked
        ∧ ∀ s, with_score s ranked = with_score s chains.
Proof.
  eexists. split; [vm_compute; reflexivity |].
  apply (identify_core_chains_order get_call_chain graph_b_a). vm_compute. reflexivity.
Defined.

(** Two ties that are ranked in enumeration order.  In [graph_b_a] the
    single-node chains [b] and [a] have the same score and [b], enumerated
    first, stays first although [a] is the smaller id.  In [graph_x_z_y] the
    chains [x; z] and [y] have the same score and the longer one, enumerated
    first, stays first. *)
Lemma identify_core_chains_tie_counterexample :
  (calculate_chain_importance ["a"] graph_b_a = calculate_chain_importance ["b"] graph_b_a
   ∧ length ["a"] = length ["b"]
   ∧ String.ltb "a" "b" = true
   ∧ identify_core_chains get_call_chain graph_b_a = Ok [["b"]; ["a"]])
  ∧ (∃ s1 s2,
       calculate_chain_importance ["x"; "z"] graph_x_z_y = Ok s1
       ∧ calculate_chain_importance ["y"] graph_x_z_y = Ok s2
       ∧ (s1 == 75)%Q ∧ (s2 == 75)%Q
       ∧ (length ["y"] < length ["x"; "z"])%nat
       ∧ identify_core_chains get_call_chain graph_x_z_y
         = Ok [["x"; "z"; "y"]; ["x"; "z"]; ["y"]; ["x"]]).
Proof.
  split; [vm_compute; repeat split |].
  eexists _, _. split; [vm_compute; reflexivity |]. split; [vm_compute; reflexivity |].
  vm_compute. repeat split; lia.
Qed.

(** ** Difficulty classifier *)

Lemma abstraction_step_points (acc : Z) (n : CodeNode) :
  abstraction_step acc n = acc + abstraction_points n.
Proof.
  unfold abstraction_step, abstraction_points, len.
  destruct (decorators n), (is_async n), (is_generator n); simpl; lia.
Qed.

Lemma abstraction_loop_total (ns : list CodeNode) :
  ∀ acc, fold_left abstraction_step ns acc = acc + total abstraction_points ns.
Proof.
  induction ns as [| n ns IH]; intros acc; simpl.
  - unfold total. simpl. lia.
  - rewrite IH, abstraction_step_points. unfold total. simpl. lia.
Qed.

(** Once the nodes of a non-empty chain have been read, the classifier
    reads the dependency collections and runs the ladder on the score. *)
Lemma calculate_difficulty_unfold (chain : list string) (g : CallGraph) (ns : list CodeNode) :
  chain ≠ [] →
  chain_nodes g chain = Ok ns →
  calculate_difficulty chain g
  = deps ← for_each get_depends_on ns; Ok (score_ladder (accumulated_score chain ns deps)).
Proof.
  intros Hne Hns. unfold calculate_difficulty. rewrite Hns. cbn [mbind result_bind].
  rewrite py_div_nonzero by by apply len_nonempty.
  destruct (for_each get_depends_on ns) as [deps | e]; [| done].
  cbn [mbind result_bind]. unfold score_ladder, accumulated_score.
  repeat match goal with |- context [Qltb ?a ?b] => destruct (Qltb a b) end; done.
Qed.

Lemma accumulated_score_formula (chain : list string) (ns : list CodeNode)
    (deps : list (list string)) :
  length ns = length chain →
  (accumulated_score chain ns deps == difficulty_score_formula chain ns deps)%Q.
Proof.
  intros Hlen.
  unfold accumulated_score, difficulty_score_formula, structural_terms, dependency_term, mean.
  rewrite !sum_Z_total, abstraction_loop_total, py_min_Qmin, !inject_Z_min.
  replace (len ns) with (len chain) by (unfold len; congruence).
  replace (0 + Z.min 20 (len chain * 4)) with (Z.min 20 (4 * len chain)) by lia.
  replace (0 + total abstraction_points ns) with (total abstraction_points ns) by lia.
  replace (total len deps * 2) with (2 * total len deps) by lia.
  rewrite inject_Z_min.
  assert (Qmin 30 (inject_Z (total complexity ns) / inject_Z (len chain) * 2)
          == Qmin 30 (2 * (inject_Z (total complexity ns) / inject_Z (len chain))))%Q as ->.
  { apply Q.min_compat; [reflexivity | ring]. }
  reflexivity.
Qed.

Lemma score_ladder_in_tier (s f : Q) (d : Difficulty) :
  (s == f)%Q → score_ladder s = d ↔ in_tier d f.
Proof.
  intros Hsf. unfold score_ladder.
  destruct (Qltb s 20) eqn:H20; [apply Qltb_lt in H20 | apply Qltb_ge in H20];
  (destruct (Qltb s 40) eqn:H40; [apply Qltb_lt in H40 | apply Qltb_ge in H40]);
  (destruct (Qltb s 60) eqn:H60; [apply Qltb_lt in H60 | apply Qltb_ge in H60]);
  (destruct (Qltb s 80) eqn:H80; [apply Qltb_lt in H80 | apply Qltb_ge in H80]);
  destruct d; simpl; split; intros H;
    try reflexivity; try discriminate; try (exfalso; lra); try lra.
Qed.

(** The classifier on a chain whose nodes all resolve and all carry their
    dependency collection. *)
Lemma calculate_difficulty_tiers (chain : list string) (g : CallGraph)
    (ns : list CodeNode) (deps : list (list string)) :
  chain ≠ [] →
  chain_nodes g chain = Ok ns →
  for_each get_depends_on ns = Ok deps →
  ∀ d, calculate_difficulty chain g = Ok d ↔ in_tier d (difficulty_score_formula chain ns deps).
Proof.
  intros Hne Hns Hdeps d.
  rewrite (calculate_difficulty_unfold chain g ns Hne Hns), Hdeps. cbn [mbind result_bind].
  assert (length ns = length chain) as Hlen by by apply for_each_length in Hns.
  rewrite <- (score_ladder_in_tier _ _ d (accumulated_score_formula chain ns deps Hlen)).
  split; [by intros [= ->] | by intros ->].
Qed.

(** C7. On a non-empty chain whose nodes are all in the graph and all carry
    their dependency collection, [calculate_difficulty] returns a tier, and
    that tier is the band of score = min(20, 4 len) + min(30, 2 mean
    complexity) + min(25, abstraction points) + min(25, 2 dependencies):
    TUTORIAL iff score < 20, BASIC iff 20 <= score < 40, INTERMEDIATE iff
    40 <= score < 60, ADVANCED iff 60 <= score < 80, EXPERT iff 80 <= score. *)
Theorem calculate_difficulty_formula (chain : list string) (g : CallGraph)
    (ns : list CodeNode) (deps : list (list string)) :
  chain ≠ [] →
  chain_nodes g chain = Ok ns →
  for_each get_depends_on ns = Ok deps →
  let score :=
    (Qmin 20 (inject_Z (4 * len chain))
     + Qmin 30 (2 * mean complexity ns)
     + Qmin 25 (inject_Z (total abstraction_points ns))
     + Qmin 25 (inject_Z (2 * total len deps)))%Q in
  is_Ok (calculate_difficulty chain g)
  ∧ (calculate_difficulty chain g = Ok TUTORIAL ↔ (score < 20)%Q)
  ∧ (calculate_difficulty chain g = Ok BASIC ↔ (20 <= score ∧ score < 40)%Q)
  ∧ (calculate_difficulty chain g = Ok INTERMEDIATE ↔ (40 <= score ∧ score < 60)%Q)
  ∧ (calculate_difficulty chain g = Ok ADVANCED ↔ (60 <= score ∧ score < 80)%Q)
  ∧ (calculate_difficulty chain g = Ok EXPERT ↔ (80 <= score)%Q).
Proof.
  intros Hne Hns Hdeps score.
  pose proof (calculate_difficulty_tiers chain g ns deps Hne Hns Hdeps) as Htier.
  split.
  - rewrite (calculate_difficulty_unfold chain g ns Hne Hns), Hdeps. by eexists.
  - split; [apply (Htier TUTORIAL) |].
    split; [apply (Htier BASIC) |].
    split; [apply (Htier INTERMEDIATE) |].
    split; [apply (Htier ADVANCED) | apply (Htier EXPERT)].
Qed.

Lemma calculate_difficulty_formula_witness :
  let score :=
    (Qmin 20 (inject_Z (4 * len ["r"]))
     + Qmin 30 (2 * mean complexity [node_decorated])
     + Qmin 25 (inject_Z (total abstraction_points [node_decorated]))
     + Qmin 25 (inject_Z (2 * total len [["werkzeug"; "typing"]])))%Q in
  is_Ok (calculate_difficulty ["r"] graph_r)
  ∧ (calculate_difficulty ["r"] graph_r = Ok TUTORIAL ↔ (score < 20)%Q)
  ∧ (calculate_difficulty ["r"] graph_r = Ok BASIC ↔ (20 <= score ∧ score < 40)%Q)
  ∧ (calculate_difficulty ["r"] graph_r = Ok INTERMEDIATE ↔ (40 <= score ∧ score < 60)%Q)
  ∧ (calculate_difficulty ["r"] graph_r = Ok ADVANCED ↔ (60 <= score ∧ score < 80)%Q)
  ∧ (calculate_difficulty ["r"] graph_r = Ok EXPERT ↔ (80 <= score)%Q).
Proof.
  apply (calculate_difficulty_formula ["r"] graph_r [node_decorated] [["werkzeug"; "typing"]]).
  - discriminate.
  - vm_compute. reflexivity.
  - vm_compute. reflexivity.
Defined.

(** The decorated coroutine of the sample graph scores 4 + 24 + 11 + 4 = 43
    points. *)
Example calculate_difficulty_decorated :
  calculate_difficulty ["r"] graph_r = Ok INTERMEDIATE
  ∧ (difficulty_score_formula ["r"] [node_decorated] [["werkzeug"; "typing"]] == 43)%Q.
Proof. vm_compute. split; reflexivity. Qed.

(** ** Challenge selection *)

Lemma chain_nodes_single (g : CallGraph) (f : string) (node : CodeNode) :
  nodes g !! f = Some node → chain_nodes g [f] = Ok [node].
Proof. intros Hf. unfold chain_nodes, get_node. simpl. rewrite Hf. done. Qed.

(** C8. Scenario A: for a single-node chain [f] whose node has no
    decorators, is neither async nor a generator, and whose complexity and
    dependency count keep the difficulty score below 20, the classifier
    returns TUTORIAL and the selector returns MULTIPLE_CHOICE and nothing
    else. *)
Theorem scenario_single_node (g : CallGraph) (f : string) (node : CodeNode)
    (deps : list string) :
  nodes g !! f = Some node →
  decorators node = [] →
  is_async node = false →
  is_generator node = false →
  depends_on node = Some deps →
  (difficulty_score_formula [f] [node] [deps] < 20)%Q →
  calculate_difficulty [f] g = Ok TUTORIAL
  ∧ select_challenge_types [f] TUTORIAL g = Ok [MULTIPLE_CHOICE]
  ∧ CODE_TRACING ∉ [MULTIPLE_CHOICE].
Proof.
  intros Hf Hdec Hasync Hgen Hdeps Hscore.
  pose proof (chain_nodes_single g f node Hf) as Hns.
  split; [| split].
  - apply (calculate_difficulty_tiers [f] g [node] [deps]); [done | done | | done].
    simpl. unfold get_depends_on. rewrite Hdeps. done.
  - unfold select_challenge_types. rewrite Hns. cbn [mbind result_bind].
    rewrite py_div_nonzero by done. cbn [mbind result_bind existsb].
    rewrite Hdec. cbn [truthy_list orb].
    assert (Qltb 10 (inject_Z (sum_Z complexity [node]) / inject_Z (len [f])) = false) as ->.
    { apply Qltb_ge.
      unfold difficulty_score_formula, structural_terms, dependency_term, mean in Hscore.
      rewrite sum_Z_total.
      change (len [f]) with 1 in *. change (len [node]) with 1 in *.
      assert (0 <= total len [deps]) as Hd by (apply total_nonneg; intros; apply len_nonneg).
      assert (total abstraction_points [node] = 0) as Ha.
      { unfold total, abstraction_points. simpl. rewrite Hdec, Hasync, Hgen. done. }
      rewrite Ha in Hscore.
      assert (0 <= inject_Z (2 * total len [deps]))%Q as Hd'.
      { change 0%Q with (inject_Z 0). rewrite <- Zle_Qle. lia. }
      set (m := (inject_Z (total complexity [node]) / inject_Z 1)%Q) in *.
      set (dd := inject_Z (2 * total len [deps])) in *.
      change (inject_Z (4 * 1)) with 4%Q in Hscore. change (inject_Z 0) with 0%Q in Hscore.
      destruct (Q.min_spec 20 4) as [[_ H1] | [_ H1]];
      destruct (Q.min_spec 30 (2 * m)) as [[_ H2] | [_ H2]];
      destruct (Q.min_spec 25 0) as [[_ H3] | [_ H3]];
      destruct (Q.min_spec 25 dd) as [[_ H4] | [_ H4]];
      rewrite H1, H2, H3, H4 in Hscore; lra. }
    done.
  - by intros ?%list_elem_of_singleton.
Qed.

Lemma scenario_single_node_witness :
  calculate_difficulty ["f"] graph_f = Ok TUTORIAL
  ∧ select_challenge_types ["f"] TUTORIAL graph_f = Ok [MULTIPLE_CHOICE]
  ∧ CODE_TRACING ∉ [MULTIPLE_CHOICE].
Proof.
  apply (scenario_single_node graph_f "f" (plain_node "f") []);
    try reflexivity.
Defined.

(** Distinctness of a concrete list of challenge types. *)
Ltac solve_NoDup :=
  repeat (apply NoDup_cons_2;
          [ let Hin := fresh "Hin" in
            intros Hin;
            repeat (apply elem_of_cons in Hin as [Hin | Hin]; [discriminate |]);
            by apply elem_of_nil in Hin
          | ]);
  apply NoDup_nil_2.

(** What the selector guarantees whenever it returns: between one and five
    types, MULTIPLE_CHOICE first, and no type twice. *)
Lemma select_challenge_types_shape (chain : list string) (d : Difficulty) (g : CallGraph)
    (types : list ChallengeType) :
  select_challenge_types chain d g = Ok types →
  (1 ≤ length types ≤ 5)%nat ∧ head types = Some MULTIPLE_CHOICE ∧ NoDup types.
Proof.
  unfold select_challenge_types.
  destruct (chain_nodes g chain) as [ns | e]; [| done]. cbn [mbind result_bind].
  destruct (py_div _ _) as [avg | e]; [| done]. cbn [mbind result_bind].
  destruct (3 <=? len chain), (existsb _ ns), d, (Qltb 10 avg);
    intros Heq; simplify_eq; (split; [simpl; lia |]); (split; [done |]);
    vm_compute; solve_NoDup.
Qed.

(** C2. On the single-node chain of the sample graph [graph_f] at TUTORIAL
    difficulty the selector returns one type, MULTIPLE_CHOICE, which is
    fewer than the three types its contract announces. *)
Theorem select_challenge_types_below_minimum :
  select_challenge_types ["f"] TUTORIAL graph_f = Ok [MULTIPLE_CHOICE]
  ∧ (length [MULTIPLE_CHOICE] < 3)%nat.
Proof. split; [vm_compute; reflexivity | simpl; lia]. Qed.

(** ** Multiple-choice templates *)

(** The parameter-count template has three distractors, each different from
    the correct answer. *)
Lemma parameter_count_template (env : Collaborators) (node : CodeNode) (g : CallGraph) :
  ∃ t, mc_templates env node g !! 1%nat = Some t
       ∧ length (distractors t) = 3%nat
       ∧ correct t ∉ distractors t.
Proof.
  eexists. split; [reflexivity |]. split; [reflexivity |].
  cbn [correct distractors map].
  intros Hin. repeat (apply elem_of_cons in Hin as [Heq | Hin]);
    [apply (inj pretty) in Heq; lia .. | by apply elem_of_nil in Hin].
Qed.

(** The distractors of the first-call template are computed from the graph
    alone, so every node whose first call is one of them gets its correct
    answer repeated among the distractors. *)
Lemma first_call_template (env : Collaborators) (node : CodeNode) (g : CallGraph)
    (callee : string) :
  head (calls node) = Some callee →
  callee ∈ generate_plausible_functions env g →
  ∃ t, mc_templates env node g !! 2%nat = Some t
       ∧ correct t = callee
       ∧ correct t ∈ distractors t.
Proof.
  intros Hhead Hin. eexists. split; [reflexivity |].
  cbn [correct distractors]. destruct (calls node) as [| c cs]; [done |].
  simpl in Hhead. injection Hhead as ->. done.
Qed.

(** C3. For a node whose return type is [str] the return-type template
    carries four distractors, so five options with the correct answer, and
    the correct answer is one of the distractors. *)
Theorem return_type_template_repeats_answer (env : Collaborators) (node : CodeNode)
    (g : CallGraph) :
  return_type node = Some "str" →
  ∃ t, mc_templates env node g !! 0%nat = Some t
       ∧ correct t = "str"
       ∧ length (correct t :: distractors t) = 5%nat
       ∧ correct t ∈ distractors t.
Proof.
  intros Hret. eexists. split; [reflexivity |].
  cbn [correct distractors]. rewrite Hret. cbn [or_else].
  split; [done |]. split; [done |]. apply elem_of_cons. by left.
Qed.

Lemma return_type_template_repeats_answer_witness :
  ∃ t, mc_templates sample_env node_returns_str graph_f !! 0%nat = Some t
       ∧ correct t = "str"
       ∧ length (correct t :: distractors t) = 5%nat
       ∧ correct t ∈ distractors t.
Proof.
  apply (return_type_template_repeats_answer sample_env node_returns_str graph_f).
  reflexivity.
Defined.

(** ** The [depends_on] attribute *)

Lemma depends_on_missing (ns : list CodeNode) :
  Exists (λ n, depends_on n = None) ns →
  for_each get_depends_on ns = @Raise (list (list string)) (AttributeError "depends_on").
Proof.
  induction ns as [| n ns IH]; intros Hex; [by inversion Hex |].
  cbn [for_each]. destruct (get_depends_on n) as [ds | e] eqn:Hg; unfold get_depends_on in Hg.
  - cbn [mbind result_bind]. rewrite IH; [reflexivity |].
    inversion Hex as [? ? Hhd | ? ? Htl]; subst; [| done].
    rewrite Hhd in Hg. discriminate.
  - destruct (depends_on n); [discriminate |]. injection Hg as <-. reflexivity.
Qed.

Lemma depends_on_present (ns : list CodeNode) :
  Forall (λ n, is_Some (depends_on n)) ns →
  ∃ deps, for_each get_depends_on ns = Ok deps
          ∧ Forall2 (λ n ds, depends_on n = Some ds) ns deps.
Proof.
  induction 1 as [| n ns [ds Hn] _ (deps & Hdeps & Hall)].
  - exists []. split; [done | constructor].
  - exists (ds :: deps). split; [| by constructor].
    assert (get_depends_on n = Ok ds) as Hg by (unfold get_depends_on; by rewrite Hn).
    cbn [for_each]. rewrite Hg, Hdeps. reflexivity.
Qed.

(** C10. [calculate_difficulty] reads [depends_on] from every node of the
    chain.  When all of them carry the collection, the tier it returns is the
    band of the three structural terms plus min(25, 2 * summed sizes of the
    collections); when a node lacks it, the classifier raises the attribute
    error and no tier is returned. *)
Theorem calculate_difficulty_depends_on (chain : list string) (g : CallGraph)
    (ns : list CodeNode) :
  chain ≠ [] →
  chain_nodes g chain = Ok ns →
  (Forall (λ n, is_Some (depends_on n)) ns →
   ∃ deps d,
     Forall2 (λ n ds, depends_on n = Some ds) ns deps
     ∧ calculate_difficulty chain g = Ok d
     ∧ in_tier d (structural_terms chain ns + Qmin 25 (inject_Z (2 * total len deps))))
  ∧ (Exists (λ n, depends_on n = None) ns →
     calculate_difficulty chain g = Raise (AttributeError "depends_on")
     ∧ ¬ is_Ok (calculate_difficulty chain g)).
Proof.
  intros Hne Hns. split.
  - intros (deps & Hdeps & Hall)%depends_on_present.
    pose proof (calculate_difficulty_unfold chain g ns Hne Hns) as Hcalc.
    rewrite Hdeps in Hcalc. cbn [mbind result_bind] in Hcalc.
    exists deps, (score_ladder (accumulated_score chain ns deps)).
    split; [done |]. split; [done |].
    by apply (calculate_difficulty_tiers chain g ns deps Hne Hns Hdeps).
  - intros Hmiss%depends_on_missing.
    rewrite (calculate_difficulty_unfold chain g ns Hne Hns), Hmiss.
    split; [done |]. by intros [d Hd].
Qed.

Lemma calculate_difficulty_depends_on_witness :
  (Forall (λ n, is_Some (depends_on n)) [node_without_deps] →
   ∃ deps d,
     Forall2 (λ n ds, depends_on n = Some ds) [node_without_deps] deps
     ∧ calculate_difficulty ["h"] graph_h = Ok d
     ∧ in_tier d (structural_terms ["h"] [node_without_deps]
                  + Qmin 25 (inject_Z (2 * total len deps))))
  ∧ (Exists (λ n, depends_on n = None) [node_without_deps] →
     calculate_difficulty ["h"] graph_h = Raise (AttributeError "depends_on")
     ∧ ¬ is_Ok (calculate_difficulty ["h"] graph_h)).
Proof.
  apply (calculate_difficulty_depends_on ["h"] graph_h [node_without_deps]).
  - discriminate.
  - vm_compute. reflexivity.
Defined.

(** The same function with and without the attribute: an empty collection
    contributes zero, a missing one fails the classifier. *)
Example calculate_difficulty_with_and_without_deps :
  calculate_difficulty ["f"] graph_f = Ok TUTORIAL
  ∧ calculate_difficulty ["h"] graph_h = Raise (AttributeError "depends_on").
Proof. vm_compute. split; reflexivity. Qed.

(** ** Level assembly *)

Section AssemblerProperties.

Variable env : Collaborators.
Variable node : CodeNode.

Lemma generate_challenges_length types chain g :
  ∀ st cs st',
    generate_challenges env node types chain g st = Ok (cs, st') →
    length cs = length types.
Proof.
  induction types as [| ctype types IH]; intros st cs st'; cbn [generate_challenges].
  - intros Heq. by simplify_eq.
  - destruct (generate_challenge env node ctype chain g st) as [[c st1] | e]; [| done].
    cbn [mbind result_bind].
    destruct (generate_challenges env node types chain g st1) as [[cs1 st2] | e] eqn:Hrest;
      [| done].
    cbn [mbind result_bind]. intros Heq. simplify_eq. simpl. f_equal. by eapply IH.
Qed.

Lemma build_level_inv i chain g levels st level st' :
  build_level env node i chain g levels st = Ok (level, st') →
  call_chain level = chain ∧ level_follows_selection g level.
Proof.
  unfold build_level.
  destruct (calculate_difficulty chain g) as [d | e] eqn:Hd; [| done].
  cbn [mbind result_bind].
  destruct (select_challenge_types chain d g) as [types | e] eqn:Ht; [| done].
  cbn [mbind result_bind].
  destruct (generate_challenges env node types chain g st) as [[cs st1] | e] eqn:Hc; [| done].
  cbn [mbind result_bind].
  destruct (first_item chain) as [c0 | e]; [| done]. cbn [mbind result_bind].
  destruct (generate_objectives chain g) as [objs | e]; [| done].
  cbn [mbind result_bind]. intros Heq. simplify_eq.
  split; [done |]. exists types. cbn [call_chain difficulty challenges].
  apply generate_challenges_length in Hc. done.
Qed.

Lemma levels_loop_inv chains g :
  ∀ i acc st levels st',
    levels_loop env node i chains g acc st = Ok (levels, st') →
    ∃ new, levels = acc ++ new
           ∧ map call_chain new = chains
           ∧ Forall (level_follows_selection g) new.
Proof.
  induction chains as [| chain chains IH]; intros i acc st levels st'; cbn [levels_loop].
  - intros Heq. simplify_eq. exists []. by rewrite app_nil_r.
  - destruct (build_level env node i chain g acc st) as [[level st1] | e] eqn:Hb; [| done].
    cbn [mbind result_bind]. intros Hloop.
    apply IH in Hloop as (new & -> & Hchains & Hall).
    apply build_level_inv in Hb as [Hchain Hsel].
    exists (level :: new). rewrite <- app_assoc. split; [done |].
    split; [simpl; congruence | by constructor].
Qed.

End AssemblerProperties.

(** C6. The assembler has no fallback, skip or omission step: whenever
    [generate_levels] returns, it has built one level for each of the first
    [max_levels] ranked chains, in ranked order, and every level carries
    exactly one challenge per type the selector chose for its chain. *)
Theorem generate_levels_one_level_per_chain
    (env : Collaborators) (enum : CallGraph → string → nat → list (list string))
    (node : CodeNode) (g : CallGraph) (max_levels : Z) (st : RandomState)
    (levels : list Level) (st' : RandomState) :
  generate_levels env enum node g max_levels st = Ok (levels, st') →
  ∃ core_chains,
    identify_core_chains enum g = Ok core_chains
    ∧ map call_chain levels = slice_to max_levels core_chains
    ∧ Forall (level_follows_selection g) levels.
Proof.
  unfold generate_levels.
  destruct (identify_core_chains enum g) as [core_chains | e]; [| done].
  cbn [mbind result_bind]. intros Hloop. exists core_chains. split; [done |].
  apply levels_loop_inv in Hloop as (new & -> & Hchains & Hall). done.
Qed.

Lemma generate_levels_one_level_per_chain_witness :
  ∃ levels st',
    generate_levels sample_env get_call_chain (plain_node "f") graph_f 10 counting_state
    = Ok (levels, st')
    ∧ ∃ core_chains,
        identify_core_chains get_call_chain graph_f = Ok core_chains
        ∧ map call_chain levels = slice_to 10 core_chains
        ∧ Forall (level_follows_selection graph_f) levels.
Proof.
  eexists _, _. split; [vm_compute; reflexivity |].
  eapply (generate_levels_one_level_per_chain sample_env get_call_chain (plain_node "f")
            graph_f 10 counting_state).
  vm_compute. reflexivity.
Defined.

(** The entry point of [graph_f] has no parameters and no calls; its chain
    is neither given three challenges nor left out: the run returns one level
    for it, with a single challenge. *)
Lemma generate_levels_single_challenge_counterexample :
  parameters (plain_node "f") = [] ∧ calls (plain_node "f") = []
  ∧ ∃ level st',
      generate_levels sample_env get_call_chain (plain_node "f") graph_f 10 counting_state
      = Ok ([level], st')
      ∧ call_chain level = ["f"]
      ∧ map ch_type (challenges level) = [MULTIPLE_CHOICE]
      ∧ ¬ (3 ≤ length (challenges level) ≤ 5)%nat.
Proof.
  split; [done |]. split; [done |].
  eexists _, _. split; [vm_compute; reflexivity |].
  split; [done |]. split; [done |]. simpl. lia.
Qed.

(** ** Randomised template choice *)

Lemma random_choice_returns {A} (l : list A) (st : RandomState) :
  l ≠ [] → ∃ x st', random_choice l st = Ok (x, st') ∧ x ∈ l.
Proof.
  intros Hne. unfold random_choice.
  destruct (l !! (draws st (cursor st) mod length l)%nat) as [x |] eqn:Hx.
  - exists x, (mkRandomState (draws st) (S (cursor st))). split; [done |].
    by eapply list_elem_of_lookup_2.
  - apply lookup_ge_None in Hx.
    assert (length l ≠ 0)%nat as Hlen by by destruct l.
    pose proof (Nat.mod_upper_bound (draws st (cursor st)) (length l) Hlen). lia.
Qed.

Lemma agree_result_bind {A B} (R : A → A → Prop) (R' : B → B → Prop)
    (r1 r2 : result (A * RandomState)) (k1 k2 : A * RandomState → result (B * RandomState)) :
  agree_result R r1 r2 →
  (∀ a1 s1 a2 s2, R a1 a2 → agree_result R' (k1 (a1, s1)) (k2 (a2, s2))) →
  agree_result R' (r1 ≫= k1) (r2 ≫= k2).
Proof.
  intros Hr Hk. destruct r1 as [[a1 s1] | e1], r2 as [[a2 s2] | e2]; simpl in *;
    try done. by apply Hk.
Qed.

Lemma agree_result_pure_bind {A B} (R' : B → B → Prop) (r : result A)
    (k1 k2 : A → result (B * RandomState)) :
  (∀ a, agree_result R' (k1 a) (k2 a)) →
  agree_result R' (r ≫= k1) (r ≫= k2).
Proof. intros Hk. destruct r as [a | e]; simpl; [apply Hk | done]. Qed.

Section Determinism.

Variable env : Collaborators.
Variable node : CodeNode.
Variable g : CallGraph.

Lemma generate_multiple_choice_agree st1 st2 :
  agree_result (challenge_agree env node g)
    (generate_multiple_choice env node g st1) (generate_multiple_choice env node g st2).
Proof.
  unfold generate_multiple_choice.
  destruct (random_choice_returns (mc_templates env node g) st1) as (t1 & s1 & -> & Ht1);
    [done |].
  destruct (random_choice_returns (mc_templates env node g) st2) as (t2 & s2 & -> & Ht2);
    [done |].
  simpl. right. split; eexists; eauto.
Qed.

Lemma generate_challenge_agree ctype chain st1 st2 :
  agree_result (challenge_agree env node g)
    (generate_challenge env node ctype chain g st1)
    (generate_challenge env node ctype chain g st2).
Proof.
  destruct ctype; cbn [generate_challenge];
    try (by left); [apply generate_multiple_choice_agree |].
  destruct (generate_code_tracing env chain g); simpl; [by left | done].
Qed.

Lemma generate_challenges_agree types chain :
  ∀ st1 st2,
    agree_result (Forall2 (challenge_agree env node g))
      (generate_challenges env node types chain g st1)
      (generate_challenges env node types chain g st2).
Proof.
  induction types as [| ctype types IH]; intros st1 st2; cbn [generate_challenges].
  - simpl. constructor.
  - eapply agree_result_bind; [apply generate_challenge_agree |].
    intros c1 s1 c2 s2 Hc. cbn beta iota.
    eapply agree_result_bind; [apply IH |].
    intros cs1 s1' cs2 s2' Hcs. simpl. by constructor.
Qed.

Lemma build_level_agree i chain levels1 levels2 st1 st2 :
  agree_result (level_agree env node g)
    (build_level env node i chain g levels1 st1)
    (build_level env node i chain g levels2 st2).
Proof.
  unfold build_level.
  apply agree_result_pure_bind. intros d.
  apply agree_result_pure_bind. intros types.
  eapply agree_result_bind; [apply generate_challenges_agree |].
  intros cs1 s1 cs2 s2 Hcs. cbn beta iota.
  apply agree_result_pure_bind. intros c0.
  apply agree_result_pure_bind. intros objs.
  simpl. split; [reflexivity | exact Hcs].
Qed.

Lemma levels_loop_agree chains :
  ∀ i levels1 levels2 st1 st2,
    Forall2 (level_agree env node g) levels1 levels2 →
    agree_result (Forall2 (level_agree env node g))
      (levels_loop env node i chains g levels1 st1)
      (levels_loop env node i chains g levels2 st2).
Proof.
  induction chains as [| chain chains IH]; intros i levels1 levels2 st1 st2 Hacc;
    cbn [levels_loop].
  - exact Hacc.
  - eapply agree_result_bind; [apply build_level_agree |].
    intros l1 s1 l2 s2 Hl. cbn beta iota. apply IH.
    apply Forall2_app; [done | by constructor].
Qed.

End Determinism.

(** C1. Two runs of [generate_levels] on the same graph with the same
    parameters, from any two states of the random generator, either raise the
    same exception or return level lists of the same length that agree, level
    by level, on id, name, description, difficulty, entry function, call
    chain, code snippet, objectives and XP reward, and whose challenges are
    pairwise equal except that the multiple-choice challenge of each run is
    made from one of the three templates, not necessarily the same one. *)
Theorem generate_levels_agree_up_to_template
    (env : Collaborators) (enum : CallGraph → string → nat → list (list string))
    (node : CodeNode) (g : CallGraph) (max_levels : Z) (st1 st2 : RandomState) :
  agree_result (Forall2 (level_agree env node g))
    (generate_levels env enum node g max_levels st1)
    (generate_levels env enum node g max_levels st2).
Proof.
  unfold generate_levels. apply agree_result_pure_bind. intros core_chains.
  apply levels_loop_agree. constructor.
Qed.

(** Two consecutive calls on [graph_f]: the second call starts from the
    generator state left by the first and returns a different level list. *)
Lemma generate_levels_two_calls_differ :
  ∃ levels1 st1 levels2 st2,
    generate_levels sample_env get_call_chain (plain_node "f") graph_f 10 counting_state
    = Ok (levels1, st1)
    ∧ generate_levels sample_env get_call_chain (plain_node "f") graph_f 10 st1
      = Ok (levels2, st2)
    ∧ levels1 ≠ levels2.
Proof.
  eexists _, _, _, _. split; [vm_compute; reflexivity |].
  split; [vm_compute; reflexivity |]. discriminate.
Qed.

(** * Further properties of the algorithm document *)

(** ** Malformed chains *)

(** X1. On the empty chain the three scoring functions divide by its length
    and raise [ZeroDivisionError]; the two generators that read the first and
    last node raise [IndexError]. *)
Theorem empty_chain_raises (env : Collaborators) (g : CallGraph) (d : Difficulty) :
  calculate_chain_importance [] g = Raise ZeroDivisionError
  ∧ calculate_difficulty [] g = Raise ZeroDivisionError
  ∧ select_challenge_types [] d g = Raise ZeroDivisionError
  ∧ generate_code_tracing env [] g = Raise IndexError
  ∧ generate_objectives [] g = Raise IndexError.
Proof. repeat split. Qed.

Lemma chain_nodes_missing (g : CallGraph) (pre post : list string) (k : string) :
  Forall (λ x, is_Some (nodes g !! x)) pre →
  nodes g !! k = None →
  chain_nodes g (pre ++ k :: post) = Raise (KeyError k).
Proof.
  intros Hpre Hk. unfold chain_nodes.
  assert (get_node g k = Raise (KeyError k)) as Hgk by (unfold get_node; by rewrite Hk).
  induction Hpre as [| x pre [n Hx] _ IH]; cbn [app for_each].
  - rewrite Hgk. reflexivity.
  - assert (get_node g x = Ok n) as -> by (unfold get_node; by rewrite Hx).
    cbn [mbind result_bind]. rewrite IH. reflexivity.
Qed.

(** X2. When a chain names a node that is not in the graph, every function
    that reads the chain's nodes raises [KeyError] for the first such id; in
    the classifier this takes precedence over a missing [depends_on]. *)
Theorem unknown_node_raises (g : CallGraph) (d : Difficulty)
    (pre post : list string) (k : string) :
  Forall (λ x, is_Some (nodes g !! x)) pre →
  nodes g !! k = None →
  calculate_chain_importance (pre ++ k :: post) g = Raise (KeyError k)
  ∧ calculate_difficulty (pre ++ k :: post) g = Raise (KeyError k)
  ∧ select_challenge_types (pre ++ k :: post) d g = Raise (KeyError k)
  ∧ generate_objectives (pre ++ k :: post) g = Raise (KeyError k).
Proof.
  intros Hpre Hk. pose proof (chain_nodes_missing g pre post k Hpre Hk) as Hns.
  unfold calculate_chain_importance, calculate_difficulty, select_challenge_types,
    generate_objectives.
  rewrite Hns. repeat split.
Qed.

Lemma unknown_node_raises_witness :
  calculate_chain_importance (["f"] ++ "ghost" :: []) graph_f = Raise (KeyError "ghost")
  ∧ calculate_difficulty (["f"] ++ "ghost" :: []) graph_f = Raise (KeyError "ghost")
  ∧ select_challenge_types (["f"] ++ "ghost" :: []) BASIC graph_f = Raise (KeyError "ghost")
  ∧ generate_objectives (["f"] ++ "ghost" :: []) graph_f = Raise (KeyError "ghost").
Proof.
  apply (unknown_node_raises graph_f BASIC ["f"] [] "ghost").
  - repeat constructor. vm_compute. eauto.
  - vm_compute. reflexivity.
Defined.

(** ** Importance score *)

Lemma geometric_closed_form (n : nat) :
  ∀ i,
    (foldr Qplus 0 (map (λ i, 40 * (7 # 10) ^ Z.of_nat i) (seq i n))
     == (400 # 3) * ((7 # 10) ^ Z.of_nat i - (7 # 10) ^ Z.of_nat (i + n)))%Q.
Proof.
  induction n as [| n IH]; intros i; cbn [seq map foldr].
  - rewrite Nat.add_0_r. ring.
  - rewrite IH. rewrite Nat.add_succ_r. cbn [Nat.add].
    assert ((7 # 10) ^ Z.of_nat (S i) == (7 # 10) ^ Z.of_nat i * (7 # 10))%Q as ->.
    { rewrite Nat2Z.inj_succ. unfold Z.succ. rewrite Qpower_plus by done. reflexivity. }
    ring.
Qed.

Lemma power_positive (n : nat) : (0 < (7 # 10) ^ Z.of_nat n)%Q.
Proof. by apply Qpower_0_lt. Qed.

Lemma power_decreasing (k n : nat) :
  ((7 # 10) ^ Z.of_nat (n + S k) < (7 # 10) ^ Z.of_nat n)%Q.
Proof.
  induction k as [| k IH].
  - rewrite Nat.add_1_r, Nat2Z.inj_succ. unfold Z.succ. rewrite Qpower_plus by done.
    pose proof (power_positive n). change ((7 # 10) ^ 1)%Q with (7 # 10)%Q. lra.
  - rewrite Nat.add_succ_r, Nat2Z.inj_succ. unfold Z.succ. rewrite Qpower_plus by done.
    pose proof (power_positive (n + S k)). change ((7 # 10) ^ 1)%Q with (7 # 10)%Q. lra.
Qed.

Lemma entry_proximity_closed (chain : list string) :
  (entry_proximity chain == (400 # 3) * (1 - (7 # 10) ^ Z.of_nat (length chain)))%Q.
Proof.
  rewrite entry_proximity_geometric. unfold geometric_sum.
  rewrite geometric_closed_form. cbn [Nat.add Z.of_nat Qpower]. reflexivity.
Qed.

(** X3. The entry-proximity component has the closed form
    [400/3 * (1 - 0.7^n)] for a chain of [n] nodes, so it stays below
    [400/3] (133.34 points) for chains of any length. *)
Theorem entry_proximity_closed_form (chain : list string) :
  (entry_proximity chain == (400 # 3) * (1 - (7 # 10) ^ Z.of_nat (length chain)))%Q
  ∧ (entry_proximity chain < 400 # 3)%Q.
Proof.
  split; [apply entry_proximity_closed |].
  rewrite entry_proximity_closed. pose proof (power_positive (length chain)). lra.
Qed.



Lemma py_min_le_l (a b : Q) : (py_min a b <= a)%Q.
Proof. rewrite py_min_Qmin. apply Q.le_min_l. Qed.

Lemma py_min_nonneg (a b : Q) : (0 <= a)%Q → (0 <= b)%Q → (0 <= py_min a b)%Q.
Proof. intros Ha Hb. rewrite py_min_Qmin. by apply Q.min_glb. Qed.

Lemma total_le_len {A} (f : A → Z) (l : list A) :
  (∀ x, f x <= 1) → total f l <= len l.
Proof.
  intros Hf. unfold total, len. induction l as [| x l IH]; simpl; [lia |].
  specialize (Hf x). lia.
Qed.

Lemma total_nonneg_Forall {A} (f : A → Z) (l : list A) :
  Forall (λ x, 0 <= f x) l → 0 <= total f l.
Proof. unfold total. induction 1; simpl; lia. Qed.

Lemma ratio_nonneg (a n : Z) : 0 <= a → 0 < n → (0 <= inject_Z a / inject_Z n)%Q.
Proof.
  intros Ha Hn. apply Qle_shift_div_l.
  - change 0%Q with (inject_Z 0). by rewrite <- Zlt_Qlt.
  - rewrite Qmult_0_l. change 0%Q with (inject_Z 0). by rewrite <- Zle_Qle.
Qed.

Lemma ratio_le_one (a n : Z) : a <= n → 0 < n → (inject_Z a / inject_Z n <= 1)%Q.
Proof.
  intros Ha Hn. apply Qle_shift_div_r.
  - change 0%Q with (inject_Z 0). by rewrite <- Zlt_Qlt.
  - rewrite Qmult_1_l. by rewrite <- Zle_Qle.
Qed.

Lemma len_positive {A} (l : list A) : l ≠ [] → 0 < len l.
Proof. destruct l; [done |]. unfold len. simpl. lia. Qed.

Lemma entry_proximity_closed_bound (chain : list string) :
  chain ≠ [] → (40 <= entry_proximity chain)%Q ∧ (entry_proximity chain < 400 # 3)%Q.
Proof.
  intros Hne. rewrite entry_proximity_closed.
  pose proof (power_positive (length chain)) as Hpos.
  split; [| lra].
  destruct chain as [| a [| b rest]]; [done | |].
  - change ((7 # 10) ^ Z.of_nat (length [a]))%Q with (7 # 10)%Q. lra.
  - pose proof (power_decreasing (length rest) 1) as Hdec.
    change (length (a :: b :: rest)) with (1 + S (length rest))%nat.
    change ((7 # 10) ^ Z.of_nat 1)%Q with (7 # 10)%Q in Hdec. lra.
Qed.

(** X5. On a non-empty chain whose nodes are all in the graph the
    importance score is returned, and the three capped components add at most
    60 points to the entry proximity, which keeps every score below 194; when
    no node has a negative complexity the score is at least the entry
    proximity, hence at least 40. *)
Theorem chain_importance_bounds (chain : list string) (g : CallGraph) (ns : list CodeNode) :
  chain ≠ [] →
  chain_nodes g chain = Ok ns →
  ∃ score,
    calculate_chain_importance chain g = Ok score
    ∧ (score <= entry_proximity chain + 60)%Q
    ∧ (score < 194)%Q
    ∧ (Forall (λ n, 0 <= complexity n) ns →
       (entry_proximity chain <= score)%Q ∧ (40 <= score)%Q).
Proof.
  intros Hne Hns. unfold calculate_chain_importance. rewrite Hns. cbn [mbind result_bind].
  rewrite !py_div_nonzero by by apply len_nonempty. cbn [mbind result_bind].
  eexists. split; [reflexivity |].
  pose proof (len_positive chain Hne) as Hlen.
  assert (len ns = len chain) as Hnslen.
  { unfold len. f_equal. by apply for_each_length in Hns. }
  rewrite !sum_Z_total.
  set (called := (inject_Z (total (λ n, len (called_by n)) ns) / inject_Z (len chain))%Q).
  set (cplx := (inject_Z (total complexity ns) / inject_Z (len chain))%Q).
  set (ratio := (inject_Z (total (λ n, if truthy_str (docstring n) then 1 else 0)%Z ns)
                 / inject_Z (len chain))%Q).
  assert (0 <= called)%Q as Hcalled.
  { apply ratio_nonneg; [| done]. apply total_nonneg. intros. apply len_nonneg. }
  assert (0 <= ratio <= 1)%Q as [Hr0 Hr1].
  { split.
    - apply ratio_nonneg; [| done]. apply total_nonneg. intros n. by destruct (truthy_str _).
    - apply ratio_le_one; [| done]. rewrite <- Hnslen. apply total_le_len.
      intros n. by destruct (truthy_str _). }
  pose proof (py_min_le_l 30 (called * 5)) as Hf.
  pose proof (py_min_le_l 20 cplx) as Hc.
  destruct (entry_proximity_closed_bound chain) as [Hp40 Hp].
  { done. }
  split; [lra |]. split; [lra |].
  intros Hnonneg.
  assert (0 <= cplx)%Q as Hcplx.
  { apply ratio_nonneg; [| done]. by apply total_nonneg_Forall. }
  pose proof (py_min_nonneg 30 (called * 5)) as Hf0.
  pose proof (py_min_nonneg 20 cplx) as Hc0.
  split; lra.
Qed.

Lemma chain_importance_bounds_witness :
  ∃ score,
    calculate_chain_importance ["x"; "z"] graph_x_z_y = Ok score
    ∧ (score <= entry_proximity ["x"; "z"] + 60)%Q
    ∧ (score < 194)%Q
    ∧ (Forall (λ n, 0 <= complexity n) [node_x; node_z] →
       (entry_proximity ["x"; "z"] <= score)%Q ∧ (40 <= score)%Q).
Proof.
  apply (chain_importance_bounds ["x"; "z"] graph_x_z_y [node_x; node_z]).
  - discriminate.
  - vm_compute. reflexivity.
Defined.

(** ** Ranked chains *)

Lemma scored_chains_inv (enum : CallGraph → string → nat → list (list string))
    (g : CallGraph) (chains : list (Q * list string)) :
  scored_chains enum g = Ok chains →
  map snd chains = candidate_chains enum g
  ∧ Forall (λ p, calculate_chain_importance (snd p) g = Ok (fst p)) chains.
Proof.
  unfold scored_chains. generalize (candidate_chains enum g). intros cands.
  revert chains. induction cands as [| c cands IH]; intros chains; cbn [for_each].
  - intros Heq. simplify_eq. by split.
  - destruct (calculate_chain_importance c g) as [s |] eqn:Hs; [| done].
    cbn [mbind result_bind].
    destruct (for_each _ cands) as [rest |]; [| done]. cbn [mbind result_bind].
    intros Heq. simplify_eq. destruct (IH rest eq_refl) as [Hmap Hall].
    split; [simpl; by f_equal | by constructor].
Qed.

Lemma identify_core_chains_inv (enum : CallGraph → string → nat → list (list string))
    (g : CallGraph) (l : list (list string)) :
  identify_core_chains enum g = Ok l →
  ∃ chains, scored_chains enum g = Ok chains ∧ l = map snd (take 10 (sort_desc chains)).
Proof.
  unfold identify_core_chains. destruct (scored_chains enum g) as [chains |]; [| done].
  cbn [mbind result_bind]. intros Heq. simplify_eq. by exists chains.
Qed.

(** X6. Whenever the ranker returns, it returns chains taken from the
    enumeration, each at most as often as it was enumerated, and exactly ten
    of them unless fewer were enumerated. *)
Theorem identify_core_chains_selects (enum : CallGraph → string → nat → list (list string))
    (g : CallGraph) (l : list (list string)) :
  identify_core_chains enum g = Ok l →
  l ⊆+ candidate_chains enum g
  ∧ length l = Nat.min 10 (length (candidate_chains enum g)).
Proof.
  intros (chains & Hs & ->)%identify_core_chains_inv.
  destruct (scored_chains_inv enum g chains Hs) as [Hmap _].
  rewrite <- Hmap, <- List.firstn_map. split.
  - trans (map snd (sort_desc chains)).
    + apply sublist_submseteq, sublist_take.
    + apply Permutation_submseteq, Permutation_map, sort_desc_perm.
  - rewrite length_take, !length_map. by rewrite (Permutation_length (sort_desc_perm chains)).
Qed.

Lemma identify_core_chains_selects_witness :
  ∃ l,
    identify_core_chains get_call_chain graph_eleven = Ok l
    ∧ l ⊆+ candidate_chains get_call_chain graph_eleven
    ∧ length l = Nat.min 10 (length (candidate_chains get_call_chain graph_eleven)).
Proof.
  eexists. split; [vm_compute; reflexivity |].
  apply (identify_core_chains_selects get_call_chain graph_eleven). vm_compute. reflexivity.
Defined.

(** X7. A graph without entry points has no candidate chain: the ranker
    returns the empty list and [generate_levels] returns no level, for every
    [max_levels], without drawing from the random generator. *)
Theorem no_entry_points_no_levels (env : Collaborators)
    (enum : CallGraph → string → nat → list (list string))
    (node : CodeNode) (g : CallGraph) (max_levels : Z) (st : RandomState) :
  entry_points g = [] →
  identify_core_chains enum g = Ok []
  ∧ generate_levels env enum node g max_levels st = Ok ([], st).
Proof.
  intros Hentry.
  assert (identify_core_chains enum g = Ok []) as Hcore.
  { unfold identify_core_chains, scored_chains, candidate_chains. rewrite Hentry. done. }
  split; [done |]. unfold generate_levels. rewrite Hcore. cbn [mbind result_bind].
  unfold slice_to. destruct (max_levels <? 0); by rewrite take_nil.
Qed.

Lemma no_entry_points_no_levels_witness :
  identify_core_chains get_call_chain graph_no_entry = Ok []
  ∧ generate_levels sample_env get_call_chain (plain_node "f") graph_no_entry 10 counting_state
    = Ok ([], counting_state).
Proof.
  apply (no_entry_points_no_levels sample_env get_call_chain (plain_node "f")
           graph_no_entry 10 counting_state).
  reflexivity.
Defined.

Lemma sorted_take_drop (l : list (Q * list string)) :
  StronglySorted score_ge l →
  ∀ n x y, x ∈ take n l → y ∈ drop n l → score_ge x y.
Proof.
  induction 1 as [| a l Hl IH Ha]; intros n x y Hx Hy.
  - rewrite take_nil in Hx. by apply elem_of_nil in Hx.
  - destruct n as [| n]; [by apply elem_of_nil in Hx |].
    cbn [take drop] in Hx, Hy. apply elem_of_cons in Hx as [-> | Hx].
    + rewrite Forall_forall in Ha. apply Ha.
      eapply elem_of_submseteq; [exact Hy |]. apply sublist_submseteq, sublist_drop.
    + by eapply IH.
Qed.

(** X8. The cut to ten chains never keeps a chain over a better one: every
    enumerated chain that is left out scores no more than every chain that is
    returned. *)
Theorem identify_core_chains_keeps_best
    (enum : CallGraph → string → nat → list (list string))
    (g : CallGraph) (l : list (list string)) (kept dropped : list string) (s s' : Q) :
  identify_core_chains enum g = Ok l →
  kept ∈ l →
  dropped ∈ candidate_chains enum g →
  dropped ∉ l →
  calculate_chain_importance kept g = Ok s →
  calculate_chain_importance dropped g = Ok s' →
  (s' <= s)%Q.
Proof.
  intros (chains & Hs & ->)%identify_core_chains_inv Hkept Hcand Hdropped Hsk Hsd.
  destruct (scored_chains_inv enum g chains Hs) as [Hmap Hall].
  rewrite Forall_forall in Hall.
  pose proof (sort_desc_perm chains) as Hperm.
  apply list_elem_of_In, in_map_iff in Hkept as ([sk ck] & Heq & Hin). simpl in Heq. subst ck.
  apply list_elem_of_In in Hin.
  assert ((sk, kept) ∈ chains) as Hk.
  { rewrite <- Hperm. eapply elem_of_submseteq; [exact Hin |].
    apply sublist_submseteq, sublist_take. }
  apply Hall in Hk. simpl in Hk. rewrite Hsk in Hk. injection Hk as ->.
  rewrite <- Hmap in Hcand.
  apply list_elem_of_In, in_map_iff in Hcand as ([sd cd] & Heq & Hind). simpl in Heq. subst cd.
  apply list_elem_of_In in Hind.
  pose proof (Hall _ Hind) as Hd. simpl in Hd. rewrite Hsd in Hd. injection Hd as ->.
  rewrite <- Hperm in Hind.
  rewrite <- (take_drop 10 (sort_desc chains)) in Hind.
  apply elem_of_app in Hind as [Htake | Hdrop].
  - exfalso. apply Hdropped. apply list_elem_of_In, in_map_iff.
    exists (sd, dropped). split; [done |]. by apply list_elem_of_In.
  - apply (sorted_take_drop _ (sort_desc_sorted chains) 10 (sk, kept) (sd, dropped)); done.
Qed.

Lemma identify_core_chains_keeps_best_witness :
  ∃ l s s',
    identify_core_chains get_call_chain graph_eleven = Ok l
    ∧ calculate_chain_importance ["e7"] graph_eleven = Ok s
    ∧ calculate_chain_importance ["e0"] graph_eleven = Ok s'
    ∧ (s' <= s)%Q.
Proof.
  eexists _, _, _. split; [vm_compute; reflexivity |].
  split; [vm_compute; reflexivity |]. split; [vm_compute; reflexivity |].
  eapply (identify_core_chains_keeps_best get_call_chain graph_eleven _ ["e7"] ["e0"]).
  - vm_compute. reflexivity.
  - apply list_elem_of_In. vm_compute. auto 20.
  - apply list_elem_of_In. vm_compute. auto 20.
  - intros Hin%list_elem_of_In. vm_compute in Hin. intuition discriminate.
  - vm_compute. reflexivity.
  - vm_compute. reflexivity.
Defined.

(** ** Selected challenge types *)

Lemma slice_to_nonneg {A} (n : Z) (l : list A) :
  0 <= n → slice_to n l = take (Z.to_nat n) l.
Proof. intros Hn. unfold slice_to. destruct (Z.ltb_spec n 0); [lia | done]. Qed.

Lemma existsb_decorated (ns : list CodeNode) :
  existsb (λ n, truthy_list (decorators n)) ns = true
  ↔ Exists (λ n, decorators n ≠ []) ns.
Proof.
  rewrite existsb_exists, Exists_exists. split.
  - intros (n & Hin & Hn). exists n. split; [by apply list_elem_of_In |].
    by destruct (decorators n).
  - intros (n & Hin & Hn). exists n. split; [by apply list_elem_of_In |].
    by destruct (decorators n).
Qed.

(** After the nodes of a non-empty chain have been read, the selector is a
    function of three tests and the difficulty. *)
Lemma select_challenge_types_unfold (chain : list string) (d : Difficulty) (g : CallGraph)
    (ns : list CodeNode) :
  chain ≠ [] →
  chain_nodes g chain = Ok ns →
  ∃ b1 b2 b3 : bool,
    (b1 = true ↔ 3 <= len chain)
    ∧ (b2 = true ↔ Exists (λ n, decorators n ≠ []) ns)
    ∧ (b3 = true ↔ (10 < mean complexity ns)%Q)
    ∧ select_challenge_types chain d g
      = Ok (slice_to 5
              (([MULTIPLE_CHOICE] ++ (if b1 then [CODE_TRACING] else []))
               ++ (if b2 || difficulty_ge d INTERMEDIATE then [FILL_BLANK] else [])
               ++ (if difficulty_ge d INTERMEDIATE then [CODE_COMPLETION] else [])
               ++ (if b3 then [DEBUGGING] else [])
               ++ (if difficulty_ge d ADVANCED then [ARCHITECTURE] else []))).
Proof.
  intros Hne Hns.
  exists (3 <=? len chain), (existsb (λ n, truthy_list (decorators n)) ns),
    (Qltb 10 (inject_Z (sum_Z complexity ns) / inject_Z (len chain))).
  split; [apply Z.leb_le |]. split; [apply existsb_decorated |].
  split.
  - rewrite Qltb_lt, sum_Z_total. unfold mean.
    replace (len ns) with (len chain); [done |].
    unfold len. f_equal. symmetry. by apply for_each_length in Hns.
  - unfold select_challenge_types. rewrite Hns. cbn [mbind result_bind].
    rewrite py_div_nonzero by by apply len_nonempty. cbn [mbind result_bind].
    destruct (3 <=? len chain), (existsb _ ns), d, (Qltb 10 _); reflexivity.
Qed.

(** X9. Which types the selector returns on a non-empty chain whose nodes
    are in the graph: MULTIPLE_CHOICE always; CODE_TRACING iff the chain has
    three or more nodes; FILL_BLANK iff a node is decorated or the difficulty
    is INTERMEDIATE or more; CODE_COMPLETION iff the difficulty is
    INTERMEDIATE or more; DEBUGGING iff the mean complexity exceeds 10;
    ARCHITECTURE iff the difficulty is ADVANCED or more, except that the cut
    to five types removes it when the chain has three or more nodes and a
    mean complexity above 10. *)
Theorem select_challenge_types_membership (chain : list string) (d : Difficulty)
    (g : CallGraph) (ns : list CodeNode) :
  chain ≠ [] →
  chain_nodes g chain = Ok ns →
  ∃ types,
    select_challenge_types chain d g = Ok types
    ∧ MULTIPLE_CHOICE ∈ types
    ∧ (CODE_TRACING ∈ types ↔ 3 <= len chain)
    ∧ (FILL_BLANK ∈ types
       ↔ Exists (λ n, decorators n ≠ []) ns ∨ 2 <= difficulty_rank d)
    ∧ (CODE_COMPLETION ∈ types ↔ 2 <= difficulty_rank d)
    ∧ (DEBUGGING ∈ types ↔ (10 < mean complexity ns)%Q)
    ∧ (ARCHITECTURE ∈ types
       ↔ 3 <= difficulty_rank d ∧ ¬ (3 <= len chain ∧ (10 < mean complexity ns)%Q)).
Proof.
  intros Hne Hns.
  destruct (select_challenge_types_unfold chain d g ns Hne Hns)
    as (b1 & b2 & b3 & H1 & H2 & H3 & ->).
  eexists. split; [reflexivity |].
  set (P1 := 3 <= len chain) in *. set (P2 := Exists _ ns) in *.
  set (P3 := (10 < mean complexity ns)%Q) in *. clearbody P1 P2 P3.
  destruct d, b1, b2, b3; rewrite slice_to_nonneg by lia; simpl;
    rewrite ?elem_of_cons, ?elem_of_nil;
    intuition (try discriminate; try lia).
Qed.

Lemma select_challenge_types_membership_witness :
  ∃ types,
    select_challenge_types pipeline_chain ADVANCED graph_pipeline = Ok types
    ∧ MULTIPLE_CHOICE ∈ types
    ∧ (CODE_TRACING ∈ types ↔ 3 <= len pipeline_chain)
    ∧ (FILL_BLANK ∈ types
       ↔ Exists (λ n, decorators n ≠ []) pipeline_nodes ∨ 2 <= difficulty_rank ADVANCED)
    ∧ (CODE_COMPLETION ∈ types ↔ 2 <= difficulty_rank ADVANCED)
    ∧ (DEBUGGING ∈ types ↔ (10 < mean complexity pipeline_nodes)%Q)
    ∧ (ARCHITECTURE ∈ types
       ↔ 3 <= difficulty_rank ADVANCED
         ∧ ¬ (3 <= len pipeline_chain ∧ (10 < mean complexity pipeline_nodes)%Q)).
Proof.
  apply (select_challenge_types_membership pipeline_chain ADVANCED graph_pipeline
           pipeline_nodes).
  - discriminate.
  - vm_compute. reflexivity.
Defined.

(** The six types qualify together on the pipeline at ADVANCED difficulty,
    and ARCHITECTURE is the one that is cut. *)
Example select_challenge_types_pipeline :
  select_challenge_types pipeline_chain ADVANCED graph_pipeline
  = Ok [MULTIPLE_CHOICE; CODE_TRACING; FILL_BLANK; CODE_COMPLETION; DEBUGGING].
Proof. vm_compute. reflexivity. Qed.

(** X10. Whenever the selector returns, its list starts with
    MULTIPLE_CHOICE, has at most five entries, and lists the types in the
    fixed order MULTIPLE_CHOICE, CODE_TRACING, FILL_BLANK, CODE_COMPLETION,
    DEBUGGING, ARCHITECTURE, each at most once. *)
Theorem select_challenge_types_order (chain : list string) (d : Difficulty) (g : CallGraph)
    (types : list ChallengeType) :
  select_challenge_types chain d g = Ok types →
  types `sublist_of` selection_order
  ∧ head types = Some MULTIPLE_CHOICE
  ∧ (length types ≤ 5)%nat.
Proof.
  unfold select_challenge_types.
  destruct (chain_nodes g chain) as [ns | e]; [| done]. cbn [mbind result_bind].
  destruct (py_div _ _) as [avg | e]; [| done]. cbn [mbind result_bind].
  destruct (3 <=? len chain), (existsb _ ns), d, (Qltb 10 avg);
    intros Heq; simplify_eq; (split; [| split; [done | simpl; lia]]);
    vm_compute; repeat first [apply sublist_nil | apply sublist_skip | apply sublist_cons ].
Qed.

Lemma select_challenge_types_order_witness :
  ∃ types,
    select_challenge_types pipeline_chain ADVANCED graph_pipeline = Ok types
    ∧ types `sublist_of` selection_order
    ∧ head types = Some MULTIPLE_CHOICE
    ∧ (length types ≤ 5)%nat.
Proof.
  eexists. split; [vm_compute; reflexivity |].
  apply (select_challenge_types_order pipeline_chain ADVANCED graph_pipeline).
  vm_compute. reflexivity.
Defined.

(** ** Reach of the difficulty tiers *)

Lemma abstraction_points_nonneg (n : CodeNode) : 0 <= abstraction_points n.
Proof.
  unfold abstraction_points. pose proof (len_nonneg (decorators n)).
  destruct (is_async n), (is_generator n); lia.
Qed.

Lemma mean_nonneg (ns : list CodeNode) :
  ns ≠ [] → Forall (λ n, 0 <= complexity n) ns → (0 <= mean complexity ns)%Q.
Proof.
  intros Hne Hall. unfold mean. apply ratio_nonneg.
  - by apply total_nonneg_Forall.
  - by apply len_positive.
Qed.

Lemma inject_Z_nonneg (z : Z) : 0 <= z → (0 <= inject_Z z)%Q.
Proof. intros Hz. change 0%Q with (inject_Z 0). by rewrite <- Zle_Qle. Qed.

(** X11. A chain of five or more nodes, none with a negative complexity, is
    never classified TUTORIAL: its length alone is worth the 20 points of
    the first threshold. *)
Theorem long_chain_not_tutorial (chain : list string) (g : CallGraph) (ns : list CodeNode) :
  (5 ≤ length chain)%nat →
  chain_nodes g chain = Ok ns →
  Forall (λ n, 0 <= complexity n) ns →
  calculate_difficulty chain g ≠ Ok TUTORIAL.
Proof.
  intros Hlen Hns Hcplx Hcalc.
  assert (chain ≠ []) as Hne by (destruct chain; [simpl in Hlen; lia | done]).
  assert (length ns = length chain) as Hnslen by by apply for_each_length in Hns.
  assert (ns ≠ []) as Hnsne by (destruct ns; [simpl in Hnslen; lia | done]).
  destruct (for_each get_depends_on ns) as [deps | e] eqn:Hdeps.
  - apply (calculate_difficulty_tiers chain g ns deps Hne Hns Hdeps) in Hcalc.
    simpl in Hcalc.
    unfold difficulty_score_formula, structural_terms, dependency_term in Hcalc.
    assert (Qmin 20 (inject_Z (4 * len chain)) == 20)%Q as H1.
    { apply Q.min_l. change 20%Q with (inject_Z 20). rewrite <- Zle_Qle. unfold len. lia. }
    assert (0 <= Qmin 30 (2 * mean complexity ns))%Q as H2.
    { apply Q.min_glb; [done |]. pose proof (mean_nonneg ns Hnsne Hcplx). lra. }
    assert (0 <= Qmin 25 (inject_Z (total abstraction_points ns)))%Q as H3.
    { apply Q.min_glb; [done |]. apply inject_Z_nonneg, total_nonneg.
      apply abstraction_points_nonneg. }
    assert (0 <= Qmin 25 (inject_Z (2 * total len deps)))%Q as H4.
    { apply Q.min_glb; [done |]. apply inject_Z_nonneg.
      pose proof (total_nonneg len deps (λ x, len_nonneg x)). lia. }
    lra.
  - rewrite (calculate_difficulty_unfold chain g ns Hne Hns), Hdeps in Hcalc. done.
Qed.

Lemma long_chain_not_tutorial_witness :
  calculate_difficulty pipeline_chain graph_pipeline ≠ Ok TUTORIAL.
Proof.
  apply (long_chain_not_tutorial pipeline_chain graph_pipeline pipeline_nodes).
  - simpl. lia.
  - vm_compute. reflexivity.
  - repeat constructor; simpl; lia.
Defined.

(** X12. A chain whose nodes have no decorators, are neither async nor
    generators and have empty dependency collections scores at most 50
    points, so it is classified INTERMEDIATE at most, whatever its length and
    complexity. *)
Theorem plain_chain_at_most_intermediate (chain : list string) (g : CallGraph)
    (ns : list CodeNode) :
  chain ≠ [] →
  chain_nodes g chain = Ok ns →
  Forall (λ n, decorators n = [] ∧ is_async n = false ∧ is_generator n = false
               ∧ depends_on n = Some []) ns →
  ∃ d, calculate_difficulty chain g = Ok d ∧ difficulty_rank d <= 2.
Proof.
  intros Hne Hns Hplain.
  assert (for_each get_depends_on ns = Ok (map (λ _, []) ns)
          ∧ total abstraction_points ns = 0
          ∧ total len (map (λ _ : CodeNode, @nil string) ns) = 0) as (Hdeps & Habs & Hdep0).
  { clear Hns. induction Hplain as [| n ns (Hd & Ha & Hg & Hdo) _ (IH1 & IH2 & IH3)].
    - done.
    - assert (get_depends_on n = Ok []) as Hgd by (unfold get_depends_on; by rewrite Hdo).
      cbn [for_each map]. rewrite Hgd, IH1. split; [done |].
      unfold total in *. cbn [map foldr]. rewrite IH2, IH3.
      unfold abstraction_points. rewrite Hd, Ha, Hg. done. }
  pose proof (calculate_difficulty_unfold chain g ns Hne Hns) as Hcalc.
  rewrite Hdeps in Hcalc. cbn [mbind result_bind] in Hcalc.
  eexists. split; [exact Hcalc |].
  pose proof (proj1 (calculate_difficulty_tiers chain g ns _ Hne Hns Hdeps _) Hcalc) as Htier.
  unfold difficulty_score_formula, structural_terms, dependency_term in Htier.
  rewrite Habs, Hdep0 in Htier.
  pose proof (Q.le_min_l 20 (inject_Z (4 * len chain))) as H1.
  pose proof (Q.le_min_l 30 (2 * mean complexity ns)) as H2.
  pose proof (Q.le_min_r 25 (inject_Z 0)) as H3.
  pose proof (Q.le_min_r 25 (inject_Z (2 * 0))) as H4.
  change (inject_Z (2 * 0)) with 0%Q in *. change (inject_Z 0) with 0%Q in *.
  destruct (score_ladder _); cbn [in_tier difficulty_rank] in *; try lia; lra.
Qed.

Lemma plain_chain_at_most_intermediate_witness :
  ∃ d, calculate_difficulty ["f"] graph_f = Ok d ∧ difficulty_rank d <= 2.
Proof.
  apply (plain_chain_at_most_intermediate ["f"] graph_f [plain_node "f"]).
  - discriminate.
  - vm_compute. reflexivity.
  - repeat constructor.
Defined.

(** ** Generated content *)

(** X13. On a non-empty chain the tracing generator returns a CODE_TRACING
    challenge whose question and answer both list one step per node of the
    chain, numbered from 1 in chain order and naming that node; every
    question step is blanked and every answer step carries the value
    computed for its node. *)
Theorem generate_code_tracing_steps (env : Collaborators) (chain : list string)
    (g : CallGraph) :
  chain ≠ [] →
  ∃ c,
    generate_code_tracing env chain g = Ok c
    ∧ ch_type c = CODE_TRACING
    ∧ length (steps_of (question c)) = length chain
    ∧ length (steps_of (answer c)) = length chain
    ∧ ∀ i node_id,
        chain !! i = Some node_id →
        steps_of (question c) !! i
        = Some (PDict [("step", PInt (Z.of_nat i + 1)); ("function", PStr node_id);
                       ("blank", PBool true)])
        ∧ steps_of (answer c) !! i
          = Some (PDict [("step", PInt (Z.of_nat i + 1)); ("function", PStr node_id);
                         ("value", compute_value env node_id)]).
Proof.
  intros Hne. unfold generate_code_tracing.
  destruct chain as [| c0 rest]; [done |]. cbn [first_item mbind result_bind].
  unfold last_item.
  destruct (last (c0 :: rest)) as [cl |] eqn:Hlast; [| by apply last_None in Hlast].
  cbn [mbind result_bind]. eexists. split; [reflexivity |].
  cbn [ch_type question answer]. split; [done |].
  set (qstep := λ (i : nat) (node_id : string),
         PDict [("step", PInt (Z.of_nat i + 1)); ("function", PStr node_id);
                ("blank", PBool true)]).
  set (astep := λ (i : nat) (node_id : string),
         PDict [("step", PInt (Z.of_nat i + 1)); ("function", PStr node_id);
                ("value", compute_value env node_id)]).
  change (steps_of (PDict [("prompt", _); ("input", _); ("steps", _)]))
    with (imap qstep (c0 :: rest)).
  change (steps_of (PDict [("steps", _)])) with (imap astep (c0 :: rest)).
  rewrite !length_imap. split; [done |]. split; [done |].
  intros i node_id Hi. rewrite !list_lookup_imap, Hi. done.
Qed.

Lemma generate_code_tracing_steps_witness :
  ∃ c,
    generate_code_tracing sample_env pipeline_chain graph_pipeline = Ok c
    ∧ ch_type c = CODE_TRACING
    ∧ length (steps_of (question c)) = length pipeline_chain
    ∧ length (steps_of (answer c)) = length pipeline_chain
    ∧ ∀ i node_id,
        pipeline_chain !! i = Some node_id →
        steps_of (question c) !! i
        = Some (PDict [("step", PInt (Z.of_nat i + 1)); ("function", PStr node_id);
                       ("blank", PBool true)])
        ∧ steps_of (answer c) !! i
          = Some (PDict [("step", PInt (Z.of_nat i + 1)); ("function", PStr node_id);
                         ("value", compute_value sample_env node_id)]).
Proof.
  apply (generate_code_tracing_steps sample_env pipeline_chain graph_pipeline). discriminate.
Defined.

(** X14. On a non-empty chain whose nodes are in the graph the objectives
    generator returns between one and three objectives, the first being the
    trace from the first to the last node of the chain; when no node is
    decorated, async or of complexity above 15 that objective is the only
    one. *)
Theorem generate_objectives_shape (chain : list string) (g : CallGraph)
    (ns : list CodeNode) (c0 cl : string) :
  chain_nodes g chain = Ok ns →
  head chain = Some c0 →
  last chain = Some cl →
  ∃ objs,
    generate_objectives chain g = Ok objs
    ∧ head objs = Some ("Trace execution from " +:+ c0 +:+ " to " +:+ cl)
    ∧ (1 ≤ length objs ≤ 3)%nat
    ∧ (Forall (λ n, decorators n = [] ∧ is_async n = false ∧ complexity n <= 15) ns →
       objs = ["Trace execution from " +:+ c0 +:+ " to " +:+ cl]).
Proof.
  intros Hns Hhead Hlast. unfold generate_objectives. rewrite Hns. cbn [mbind result_bind].
  destruct chain as [| c chain']; [done |]. simpl in Hhead. injection Hhead as ->.
  cbn [first_item mbind result_bind]. unfold last_item. rewrite Hlast.
  cbn [mbind result_bind]. eexists. split; [reflexivity |].
  rewrite slice_to_nonneg by lia. change (Z.to_nat 3) with 3%nat.
  set (trace := "Trace execution from " +:+ c0 +:+ " to " +:+ cl).
  set (rest := concat (map objectives_of_node ns)).
  split; [done |]. split.
  - rewrite length_take. cbn [length]. lia.
  - intros Hplain. assert (rest = []) as ->; [| done].
    unfold rest. clear -Hplain.
    induction Hplain as [| n ns (Hd & Ha & Hc) _ IH]; [done |].
    cbn [map concat]. rewrite IH. unfold objectives_of_node. rewrite Hd, Ha.
    destruct (Z.ltb_spec 15 (complexity n)); [lia | done].
Qed.

Lemma generate_objectives_shape_witness :
  ∃ objs,
    generate_objectives pipeline_chain graph_pipeline = Ok objs
    ∧ head objs = Some ("Trace execution from " +:+ "p1" +:+ " to " +:+ "p5")
    ∧ (1 ≤ length objs ≤ 3)%nat
    ∧ (Forall (λ n, decorators n = [] ∧ is_async n = false ∧ complexity n <= 15)
              pipeline_nodes →
       objs = ["Trace execution from " +:+ "p1" +:+ " to " +:+ "p5"]).
Proof.
  apply (generate_objectives_shape pipeline_chain graph_pipeline pipeline_nodes "p1" "p5").
  - vm_compute. reflexivity.
  - reflexivity.
  - reflexivity.
Defined.

(** On the pipeline the decorator and the coroutine each add an objective. *)
Example generate_objectives_pipeline :
  generate_objectives pipeline_chain graph_pipeline
  = Ok ["Trace execution from p1 to p5"; "Understand cached decorator pattern";
        "Learn async/await pattern"].
Proof. vm_compute. reflexivity. Qed.

Lemma str_take_length (n : nat) (s : string) :
  String.length (str_take n s) = Nat.min n (String.length s).
Proof.
  revert s. induction n as [| n IH]; intros [| c s]; simpl; try done. by rewrite IH.
Qed.

Lemma str_take_prefix (n : nat) (s : string) : ∃ rest, s = str_take n s +:+ rest.
Proof.
  revert s. induction n as [| n IH]; intros s.
  - exists s. by destruct s.
  - destruct s as [| c s]; [by exists EmptyString |].
    destruct (IH s) as [rest Hrest]. exists rest.
    change (String c s = String c (str_take n s +:+ rest)). by rewrite <- Hrest.
Qed.

(** X15. The hint list is never empty and has at most three entries: one
    for a non-empty docstring, one for a node with calls, and always, last,
    the line-range hint.  The docstring hint quotes the first 100 characters
    of the docstring (all of it when shorter) and always ends in an
    ellipsis. *)
Theorem generate_hints_shape (challenge : Challenge) (node : CodeNode) :
  let hints := generate_hints challenge node in
  last hints
  = Some ("Look at lines " +:+ pretty (line_start node) +:+ "-" +:+ pretty (line_end node))
  ∧ length hints
    = (1 + (if truthy_str (docstring node) then 1 else 0)
       + (if truthy_list (calls node) then 1 else 0))%nat
  ∧ (1 ≤ length hints ≤ 3)%nat
  ∧ (∀ doc, docstring node = Some doc → doc ≠ "" →
       ∃ excerpt rest,
         head hints = Some ("Check the docstring: " +:+ excerpt +:+ "...")
         ∧ doc = excerpt +:+ rest
         ∧ String.length excerpt = Nat.min 100 (String.length doc)).
Proof.
  unfold generate_hints. cbn zeta.
  split; [by rewrite last_snoc |].
  split; [| split].
  - destruct (docstring node) as [[| c rest] |], (calls node); reflexivity.
  - destruct (docstring node) as [[| c rest] |], (calls node);
      rewrite ?length_app; simpl; lia.
  - intros doc Hdoc Hne. rewrite Hdoc. destruct doc as [| c rest]; [done |].
    destruct (str_take_prefix 100 (String c rest)) as [tail Htail].
    exists (str_take 100 (String c rest)), tail.
    split; [by destruct (calls node) |]. split; [exact Htail | apply str_take_length].
Qed.

(** ** Assembled levels *)

Lemma map_fmap {A B} (f : A → B) (l : list A) : map f l = f <$> l.
Proof. induction l as [| x l IH]; [done |]. simpl. by rewrite IH. Qed.

Lemma level_id_inj (i j : Z) :
  "level_" +:+ pretty (i + 1) = "level_" +:+ pretty (j + 1) → i = j.
Proof.
  intros Heq.
  assert (pretty (i + 1) = pretty (j + 1)) as Hp by (by injection Heq).
  apply (inj pretty) in Hp. lia.
Qed.

Section LevelFields.

Variable env : Collaborators.
Variable node : CodeNode.

(** Number of random draws a list of challenge types costs. *)
Lemma generate_challenges_draws types chain g :
  ∀ st cs st',
    generate_challenges env node types chain g st = Ok (cs, st') →
    draws st' = draws st
    ∧ cursor st' = (cursor st + length (List.filter (λ t, bool_decide (t = MULTIPLE_CHOICE))
                                                    types))%nat.
Proof.
  induction types as [| ctype types IH]; intros st cs st'; cbn [generate_challenges].
  - intros Heq. simplify_eq. simpl. split; [done | lia].
  - destruct (generate_challenge env node ctype chain g st) as [[c st1] | e] eqn:Hc; [| done].
    cbn [mbind result_bind].
    destruct (generate_challenges env node types chain g st1) as [[cs1 st2] | e] eqn:Hrest;
      [| done].
    cbn [mbind result_bind]. intros Heq. simplify_eq.
    destruct (IH _ _ _ Hrest) as [Hd Hcur]. rewrite Hd, Hcur.
    assert (draws st1 = draws st
            ∧ cursor st1 = (cursor st + if bool_decide (ctype = MULTIPLE_CHOICE) then 1 else 0)%nat)
      as [Hd1 Hc1].
    { destruct ctype; cbn [generate_challenge] in Hc;
        try (simplify_eq; split; [done | simpl; lia]).
      - unfold generate_multiple_choice, random_choice in Hc.
        destruct (mc_templates env node g !! _) as [t |]; [| done].
        cbn [mbind result_bind] in Hc. simplify_eq. split; [done | simpl; lia].
      - destruct (generate_code_tracing env chain g); [| done].
        cbn [mbind result_bind] in Hc. simplify_eq. split; [done | simpl; lia]. }
    rewrite Hd1, Hc1. split; [done |].
    cbn [List.filter]. destruct (bool_decide (ctype = MULTIPLE_CHOICE)); simpl; lia.
Qed.

Lemma selected_types_one_draw (types : list ChallengeType) :
  head types = Some MULTIPLE_CHOICE →
  NoDup types →
  length (List.filter (λ t, bool_decide (t = MULTIPLE_CHOICE)) types) = 1%nat.
Proof.
  destruct types as [| t rest]; [done |]. simpl. intros [= ->] Hnd.
  rewrite bool_decide_eq_true_2 by done. simpl. f_equal.
  apply NoDup_cons in Hnd as [Hnotin _].
  induction rest as [| r rest IH]; [done |]. simpl.
  rewrite bool_decide_eq_false_2.
  - apply IH. intros Hin. apply Hnotin. by right.
  - intros ->. apply Hnotin. by left.
Qed.

(** What one iteration of the level loop stores in the level it builds and
    what it costs in random draws. *)
Lemma build_level_fields i chain g levels st level st' :
  build_level env node i chain g levels st = Ok (level, st') →
  level_id level = "level_" +:+ pretty (i + 1)
  ∧ head (call_chain level) = Some (entry_function level)
  ∧ xp_reward level = calculate_xp_reward env (difficulty level)
  ∧ estimated_time level = estimate_time env (challenges level)
  ∧ prerequisites level = determine_prerequisites env i levels
  ∧ draws st' = draws st
  ∧ cursor st' = S (cursor st).
Proof.
  unfold build_level.
  destruct (calculate_difficulty chain g) as [d | e] eqn:Hd; [| done].
  cbn [mbind result_bind].
  destruct (select_challenge_types chain d g) as [types | e] eqn:Ht; [| done].
  cbn [mbind result_bind].
  destruct (generate_challenges env node types chain g st) as [[cs st1] | e] eqn:Hc; [| done].
  cbn [mbind result_bind].
  destruct chain as [| c0 rest]; [done |]. cbn [first_item mbind result_bind].
  destruct (generate_objectives (c0 :: rest) g) as [objs | e]; [| done].
  cbn [mbind result_bind]. intros Heq. simplify_eq. cbn.
  apply generate_challenges_draws in Hc as [Hdr Hcur].
  destruct (select_challenge_types_shape _ _ _ _ Ht) as (_ & Hhead & Hnd).
  rewrite (selected_types_one_draw types Hhead Hnd) in Hcur.
  repeat split; try done. lia.
Qed.

Lemma levels_loop_fields chains g :
  ∀ i acc st levels st',
    levels_loop env node i chains g acc st = Ok (levels, st') →
    ∃ new,
      levels = acc ++ new
      ∧ length new = length chains
      ∧ draws st' = draws st
      ∧ cursor st' = (cursor st + length new)%nat
      ∧ ∀ k l,
          new !! k = Some l →
          level_id l = "level_" +:+ pretty (i + Z.of_nat k + 1)
          ∧ head (call_chain l) = Some (entry_function l)
          ∧ xp_reward l = calculate_xp_reward env (difficulty l)
          ∧ estimated_time l = estimate_time env (challenges l)
          ∧ prerequisites l = determine_prerequisites env (i + Z.of_nat k) (acc ++ take k new).
Proof.
  induction chains as [| chain chains IH]; intros i acc st levels st'; cbn [levels_loop].
  - intros Heq. simplify_eq. exists []. rewrite app_nil_r.
    split; [done |]. split; [done |]. split; [done |]. split; [simpl; lia |].
    intros k l Hk. by rewrite lookup_nil in Hk.
  - destruct (build_level env node i chain g acc st) as [[level st1] | e] eqn:Hb; [| done].
    cbn [mbind result_bind]. intros Hloop.
    apply IH in Hloop as (new & -> & Hlen & Hdr & Hcur & Hfields).
    apply build_level_fields in Hb as (Hid & Hentry & Hxp & Htime & Hpre & Hdr1 & Hcur1).
    exists (level :: new). rewrite <- app_assoc.
    split; [done |]. split; [simpl; lia |]. split; [congruence |].
    split; [simpl; lia |].
    intros [| k] l Hk.
    + simpl in Hk. simplify_eq. rewrite Z.add_0_r, app_nil_r. done.
    + simpl in Hk. destruct (Hfields k l Hk) as (Hid' & Hentry' & Hxp' & Htime' & Hpre').
      replace (i + Z.of_nat (S k) + 1) with (i + 1 + Z.of_nat k + 1) by lia.
      replace (i + Z.of_nat (S k)) with (i + 1 + Z.of_nat k) by lia.
      cbn [take]. rewrite <- app_assoc in Hpre'. done.
Qed.

Lemma levels_loop_raises chains g chain e :
  chain ∈ chains →
  calculate_difficulty chain g = Raise e →
  ∀ i acc st, ∃ e', levels_loop env node i chains g acc st = Raise e'.
Proof.
  intros Hin Hcalc. induction chains as [| c chains IH]; [by apply elem_of_nil in Hin |].
  intros i acc st. cbn [levels_loop].
  destruct (build_level env node i c g acc st) as [[level st1] | e1] eqn:Hb.
  - cbn [mbind result_bind]. apply IH.
    apply elem_of_cons in Hin as [-> | Hin]; [| done].
    unfold build_level in Hb. rewrite Hcalc in Hb. done.
  - by exists e1.
Qed.

End LevelFields.

(** X16. The levels returned by [generate_levels] are numbered in output
    order: the level at position [k] (from 0) has id [level_<k+1>], so no
    two levels share an id. *)
Theorem generate_levels_ids
    (env : Collaborators) (enum : CallGraph → string → nat → list (list string))
    (node : CodeNode) (g : CallGraph) (max_levels : Z) (st : RandomState)
    (levels : list Level) (st' : RandomState) :
  generate_levels env enum node g max_levels st = Ok (levels, st') →
  (∀ k l, levels !! k = Some l → level_id l = "level_" +:+ pretty (Z.of_nat k + 1))
  ∧ NoDup (map level_id levels).
Proof.
  unfold generate_levels.
  destruct (identify_core_chains enum g) as [core |]; [| done]. cbn [mbind result_bind].
  intros (new & -> & _ & _ & _ & Hfields)%levels_loop_fields. cbn [app].
  assert (∀ k l, new !! k = Some l → level_id l = "level_" +:+ pretty (Z.of_nat k + 1))
    as Hids.
  { intros k l Hk. destruct (Hfields k l Hk) as [Hid _]. by rewrite Z.add_0_l in Hid. }
  split; [exact Hids |].
  rewrite map_fmap. apply NoDup_alt. intros i j x Hi Hj.
  rewrite list_lookup_fmap in Hi, Hj.
  destruct (new !! i) as [li |] eqn:Hli; [| done].
  destruct (new !! j) as [lj |] eqn:Hlj; [| done].
  simpl in Hi, Hj. injection Hi as <-. injection Hj as Hj.
  rewrite (Hids _ _ Hli), (Hids _ _ Hlj) in Hj.
  apply level_id_inj in Hj. lia.
Qed.

Lemma generate_levels_ids_witness :
  ∃ levels st',
    generate_levels sample_env get_call_chain (plain_node "f") graph_x_z_y 10 counting_state
    = Ok (levels, st')
    ∧ (∀ k l, levels !! k = Some l → level_id l = "level_" +:+ pretty (Z.of_nat k + 1))
    ∧ NoDup (map level_id levels).
Proof.
  eexists _, _. split; [vm_compute; reflexivity |].
  eapply (generate_levels_ids sample_env get_call_chain (plain_node "f") graph_x_z_y 10
            counting_state).
  vm_compute. reflexivity.
Defined.

Lemma identify_core_chains_at_most_ten
    (enum : CallGraph → string → nat → list (list string))
    (g : CallGraph) (l : list (list string)) :
  identify_core_chains enum g = Ok l → (length l ≤ 10)%nat.
Proof.
  intros (chains & _ & ->)%identify_core_chains_inv.
  rewrite length_map, length_take. lia.
Qed.

(** X17. How many levels are returned: never more than ten; with a
    non-negative [max_levels], the smaller of [max_levels] and the number of
    ranked chains; with a negative [max_levels], which is not rejected, the
    number of ranked chains minus its absolute value (or none), as the slice
    then drops chains from the end of the ranking. *)
Theorem generate_levels_count
    (env : Collaborators) (enum : CallGraph → string → nat → list (list string))
    (node : CodeNode) (g : CallGraph) (max_levels : Z) (st : RandomState)
    (levels : list Level) (st' : RandomState) :
  generate_levels env enum node g max_levels st = Ok (levels, st') →
  ∃ core_chains,
    identify_core_chains enum g = Ok core_chains
    ∧ (length levels ≤ 10)%nat
    ∧ (0 <= max_levels →
       length levels = Nat.min (Z.to_nat max_levels) (length core_chains))
    ∧ (max_levels < 0 →
       length levels = (length core_chains - Z.to_nat (- max_levels))%nat).
Proof.
  unfold generate_levels.
  destruct (identify_core_chains enum g) as [core |] eqn:Hcore; [| done].
  cbn [mbind result_bind].
  intros (new & -> & Hlen & _)%levels_loop_fields. cbn [app].
  exists core. split; [done |].
  pose proof (identify_core_chains_at_most_ten enum g core Hcore) as Hten.
  unfold slice_to in Hlen. rewrite Hlen.
  destruct (Z.ltb_spec max_levels 0); rewrite length_take; unfold len;
    repeat split; intros; lia.
Qed.

Lemma generate_levels_count_witness :
  ∃ levels st' core_chains,
    generate_levels sample_env get_call_chain (plain_node "f") graph_x_z_y (-1) counting_state
    = Ok (levels, st')
    ∧ identify_core_chains get_call_chain graph_x_z_y = Ok core_chains
    ∧ (length levels ≤ 10)%nat
    ∧ (0 <= -1 → length levels = Nat.min (Z.to_nat (-1)) (length core_chains))
    ∧ (-1 < 0 → length levels = (length core_chains - Z.to_nat (- -1))%nat).
Proof.
  eexists _, _. 
  destruct (generate_levels_count sample_env get_call_chain (plain_node "f") graph_x_z_y (-1)
              counting_state _ _ ltac:(vm_compute; reflexivity)) as (core & Hcore & Hrest).
  exists core. split; [vm_compute; reflexivity |]. split; [exact Hcore | exact Hrest].
Defined.

(** With [max_levels = -1] the four ranked chains of [graph_x_z_y] give
    three levels: the last-ranked chain is the one left out. *)
Example generate_levels_negative_max :
  (fmap (M := result) (λ r, map call_chain (fst r))
     (generate_levels sample_env get_call_chain (plain_node "f") graph_x_z_y (-1)
        counting_state))
  = Ok [["x"; "z"; "y"]; ["x"; "z"]; ["y"]].
Proof. vm_compute. reflexivity. Qed.

(** X18. In every returned level the entry function is the first node of
    the call chain, the XP reward is the reward of the level's own
    difficulty, the time estimate is computed from the level's own
    challenges, and the prerequisites are computed from the position of the
    level and the levels before it only. *)
Theorem generate_levels_metadata
    (env : Collaborators) (enum : CallGraph → string → nat → list (list string))
    (node : CodeNode) (g : CallGraph) (max_levels : Z) (st : RandomState)
    (levels : list Level) (st' : RandomState) :
  generate_levels env enum node g max_levels st = Ok (levels, st') →
  ∀ k l,
    levels !! k = Some l →
    head (call_chain l) = Some (entry_function l)
    ∧ xp_reward l = calculate_xp_reward env (difficulty l)
    ∧ estimated_time l = estimate_time env (challenges l)
    ∧ prerequisites l = determine_prerequisites env (Z.of_nat k) (take k levels).
Proof.
  unfold generate_levels.
  destruct (identify_core_chains enum g) as [core |]; [| done]. cbn [mbind result_bind].
  intros (new & -> & _ & _ & _ & Hfields)%levels_loop_fields k l Hk. cbn [app] in *.
  destruct (Hfields k l Hk) as (_ & Hentry & Hxp & Htime & Hpre).
  rewrite Z.add_0_l in Hpre. done.
Qed.

Lemma generate_levels_metadata_witness :
  ∃ levels st',
    generate_levels sample_env get_call_chain (plain_node "f") graph_x_z_y 10 counting_state
    = Ok (levels, st')
    ∧ ∀ k l,
        levels !! k = Some l →
        head (call_chain l) = Some (entry_function l)
        ∧ xp_reward l = calculate_xp_reward sample_env (difficulty l)
        ∧ estimated_time l = estimate_time sample_env (challenges l)
        ∧ prerequisites l = determine_prerequisites sample_env (Z.of_nat k) (take k levels).
Proof.
  eexists _, _. split; [vm_compute; reflexivity |].
  eapply (generate_levels_metadata sample_env get_call_chain (plain_node "f") graph_x_z_y 10
            counting_state).
  vm_compute. reflexivity.
Defined.

(** X19. A run of [generate_levels] that returns has drawn from the random
    generator exactly once per level: the generator is left advanced by the
    number of levels and otherwise unchanged. *)
Theorem generate_levels_draws
    (env : Collaborators) (enum : CallGraph → string → nat → list (list string))
    (node : CodeNode) (g : CallGraph) (max_levels : Z) (st : RandomState)
    (levels : list Level) (st' : RandomState) :
  generate_levels env enum node g max_levels st = Ok (levels, st') →
  draws st' = draws st ∧ cursor st' = (cursor st + length levels)%nat.
Proof.
  unfold generate_levels.
  destruct (identify_core_chains enum g) as [core |]; [| done]. cbn [mbind result_bind].
  intros (new & -> & _ & Hdr & Hcur & _)%levels_loop_fields. done.
Qed.

Lemma generate_levels_draws_witness :
  ∃ levels st',
    generate_levels sample_env get_call_chain (plain_node "f") graph_x_z_y 10 counting_state
    = Ok (levels, st')
    ∧ draws st' = draws counting_state
    ∧ cursor st' = (cursor counting_state + length levels)%nat.
Proof.
  eexists _, _. split; [vm_compute; reflexivity |].
  eapply (generate_levels_draws sample_env get_call_chain (plain_node "f") graph_x_z_y 10
            counting_state).
  vm_compute. reflexivity.
Defined.

(** X20. A chain among those to be turned into levels on which the
    classifier raises is not skipped: the whole run raises and no level is
    returned. *)
Theorem generate_levels_aborts
    (env : Collaborators) (enum : CallGraph → string → nat → list (list string))
    (node : CodeNode) (g : CallGraph) (max_levels : Z) (st : RandomState)
    (core_chains : list (list string)) (chain : list string) (e : PyError) :
  identify_core_chains enum g = Ok core_chains →
  chain ∈ slice_to max_levels core_chains →
  calculate_difficulty chain g = Raise e →
  ∃ e', generate_levels env enum node g max_levels st = Raise e'.
Proof.
  intros Hcore Hin Hcalc. unfold generate_levels. rewrite Hcore. cbn [mbind result_bind].
  by eapply levels_loop_raises.
Qed.

Lemma generate_levels_aborts_witness :
  ∃ e', generate_levels sample_env get_call_chain node_without_deps graph_h 10 counting_state
        = Raise e'.
Proof.
  apply (generate_levels_aborts sample_env get_call_chain node_without_deps graph_h 10
           counting_state [["h"]] ["h"] (AttributeError "depends_on")).
  - vm_compute. reflexivity.
  - vm_compute. apply elem_of_cons. by left.
  - vm_compute. reflexivity.
Defined.

(** * Display helpers of the front end *)

(** ** Durations *)

(** X21. How [formatTime] splits a whole number of seconds: below one
    minute (negative values included) it prints the seconds; from one minute
    to one hour it prints minutes and seconds that add up to the input; from
    one hour on it prints hours and minutes, which determine the input only
    up to the minute. *)
Theorem formatTime_parts (seconds : Z) :
  safe_integer seconds →
  (seconds < 60 ∧ formatTime seconds = pretty seconds +:+ "s")
  ∨ (∃ m r,
       60 <= seconds < 3600 ∧ seconds = 60 * m + r ∧ 1 <= m < 60 ∧ 0 <= r < 60
       ∧ formatTime seconds = pretty m +:+ "m " +:+ pretty r +:+ "s")
  ∨ (∃ h m,
       3600 <= seconds ∧ 1 <= h ∧ 0 <= m < 60
       ∧ 3600 * h + 60 * m <= seconds < 3600 * h + 60 * m + 60
       ∧ formatTime seconds = pretty h +:+ "h " +:+ pretty m +:+ "m").
Proof.
  intros _. unfold formatTime.
  destruct (Z.ltb_spec seconds 60) as [Hlt | Hge]; [left; done | right].
  destruct (Z.ltb_spec (seconds / 60) 60) as [Hm | Hm].
  - left. exists (seconds / 60), (Z.rem seconds 60).
    split; [| split; [| split; [| split; [| reflexivity]]]];
      Z.to_euclidean_division_equations; lia.
  - right. exists (seconds / 60 / 60), (Z.rem (seconds / 60) 60).
    split; [| split; [| split; [| split; [| reflexivity]]]];
      Z.to_euclidean_division_equations; lia.
Qed.

Lemma formatTime_parts_witness :
  (3725 < 60 ∧ formatTime 3725 = pretty 3725 +:+ "s")
  ∨ (∃ m r,
       60 <= 3725 < 3600 ∧ 3725 = 60 * m + r ∧ 1 <= m < 60 ∧ 0 <= r < 60
       ∧ formatTime 3725 = pretty m +:+ "m " +:+ pretty r +:+ "s")
  ∨ (∃ h m,
       3600 <= 3725 ∧ 1 <= h ∧ 0 <= m < 60
       ∧ 3600 * h + 60 * m <= 3725 < 3600 * h + 60 * m + 60
       ∧ formatTime 3725 = pretty h +:+ "h " +:+ pretty m +:+ "m").
Proof. apply (formatTime_parts 3725). unfold safe_integer. lia. Defined.

(** One hour, two minutes and five seconds. *)
Example formatTime_3725 : formatTime 3725 = "1h 2m" ∧ formatTime 125 = "2m 5s".
Proof. vm_compute. split; reflexivity. Qed.

Lemma distinct_strings_NoDup (l : list string) : distinct_strings l = true → NoDup l.
Proof.
  induction l as [| x l IH]; simpl; [constructor |].
  intros [Hx Hl]%andb_true_iff. constructor; [| by apply IH].
  intros Hin. apply negb_true_iff in Hx.
  assert (existsb (String.eqb x) l = true) as Hex; [| congruence].
  apply existsb_exists. exists x. split; [by apply list_elem_of_In | apply String.eqb_refl].
Qed.

Lemma displays_below_one_hour_distinct : NoDup displays_below_one_hour.
Proof. apply distinct_strings_NoDup. vm_compute. reflexivity. Qed.

(** X22. Two different durations below one hour are never displayed alike,
    while from one hour on the seconds are not shown: every duration is
    displayed as the start of its minute. *)
Theorem formatTime_resolution :
  (∀ s1 s2, 0 <= s1 < 3600 → 0 <= s2 < 3600 → formatTime s1 = formatTime s2 → s1 = s2)
  ∧ (∀ s, safe_integer s → 3600 <= s → formatTime s = formatTime (60 * (s / 60))).
Proof.
  split.
  - intros s1 s2 H1 H2 Heq.
    pose proof displays_below_one_hour_distinct as Hnd.
    unfold displays_below_one_hour in Hnd. rewrite map_fmap in Hnd.
    assert (Z.to_nat s1 = Z.to_nat s2) as Hn; [| lia].
    apply (proj1 (NoDup_alt _) Hnd _ _ (formatTime s1)).
    + rewrite list_lookup_fmap, lookup_seq_lt by lia. simpl. f_equal. f_equal. lia.
    + rewrite list_lookup_fmap, lookup_seq_lt by lia. simpl. rewrite Heq. f_equal. f_equal. lia.
  - intros s _ Hs. unfold formatTime.
    assert (60 * (s / 60) / 60 = s / 60) as Hdiv.
    { rewrite Z.mul_comm. apply Z.div_mul. lia. }
    rewrite Hdiv.
    destruct (Z.ltb_spec s 60); [lia |].
    destruct (Z.ltb_spec (60 * (s / 60)) 60); [Z.to_euclidean_division_equations; lia |].
    destruct (Z.ltb_spec (s / 60) 60); [Z.to_euclidean_division_equations; lia |].
    reflexivity.
Qed.

(** ** Colour classes *)

(** X23. For each of the five difficulty tiers [getDifficultyColor]
    returns that tier's own entry of the table, a non-empty string, and no
    two tiers share a class string, whatever members objects inherit.  A
    string that is neither a tier nor an inherited member gets the class of
    BASIC. *)
Theorem getDifficultyColor_tiers (object_prototype : gset string) :
  (∀ d, ∃ class,
      getDifficultyColor object_prototype (difficulty_name d) = Some (JsString class)
      ∧ difficulty_colors !! difficulty_name d = Some class
      ∧ class ≠ "")
  ∧ (∀ d1 d2,
       getDifficultyColor object_prototype (difficulty_name d1)
       = getDifficultyColor object_prototype (difficulty_name d2) →
       d1 = d2)
  ∧ (∀ key,
       difficulty_colors !! key = None →
       key ∉ object_prototype →
       getDifficultyColor object_prototype key
       = getDifficultyColor object_prototype (difficulty_name BASIC)).
Proof.
  split; [| split].
  - intros d. destruct d; eexists; (split; [reflexivity | split; [reflexivity | done]]).
  - intros d1 d2. destruct d1, d2; intros Heq; try reflexivity; discriminate Heq.
  - intros key Hnone Hproto. unfold getDifficultyColor at 1, js_get at 1.
    rewrite Hnone. by rewrite bool_decide_eq_false_2.
Qed.

(** ** Progress bar *)

(** X24. The percentage of the progress bar never exceeds 100; it is 0
    whenever [max] is not positive, so no division by zero takes place; it
    is not negative when [current] is not; and it is exactly 100 as soon as
    [current] reaches [max]. *)
Theorem progress_percentage_range (current max : Q) :
  (progress_percentage current max <= 100)%Q
  ∧ ((max <= 0)%Q → progress_percentage current max = 0%Q)
  ∧ ((0 <= current)%Q → (0 <= progress_percentage current max)%Q)
  ∧ ((0 < max)%Q → (max <= current)%Q → (progress_percentage current max == 100)%Q).
Proof.
  unfold progress_percentage.
  destruct (Qltb 0 max) eqn:Hmax; [apply Qltb_lt in Hmax | apply Qltb_ge in Hmax].
  - split; [apply Q.le_min_l |]. split; [intros; lra |]. split.
    + intros Hcur. apply Q.min_glb; [done |].
      assert (0 <= current / max)%Q; [| lra].
      apply Qle_shift_div_l; [done | lra].
    + intros _ Hreach. apply Q.min_l.
      assert (1 <= current / max)%Q; [| lra].
      apply Qle_shift_div_l; [done | lra].
  - split; [done |]. split; [done |]. split; [done |]. intros; lra.
Qed.

(** X25. The colour of the progress bar, over exact arithmetic: with a
    positive [max] it is green iff [current] is at least 90% of [max], blue
    iff at least 70% and below 90%, yellow iff at least 50% and below 70%,
    and orange below 50%; with a [max] that is not positive it is orange
    whatever [current] is. *)
Theorem progress_bar_color_bands (current max : Q) :
  ((0 < max)%Q →
   (progress_bar_color current max = "bg-green-500" ↔ (90 * max <= 100 * current)%Q)
   ∧ (progress_bar_color current max = "bg-blue-500"
      ↔ (70 * max <= 100 * current ∧ 100 * current < 90 * max)%Q)
   ∧ (progress_bar_color current max = "bg-yellow-500"
      ↔ (50 * max <= 100 * current ∧ 100 * current < 70 * max)%Q)
   ∧ (progress_bar_color current max = "bg-orange-500" ↔ (100 * current < 50 * max)%Q))
  ∧ ((max <= 0)%Q → progress_bar_color current max = "bg-orange-500").
Proof.
  split.
  - intros Hmax. unfold progress_bar_color, progress_percentage.
    rewrite (proj2 (Qltb_lt 0 max) Hmax).
    set (ratio := (current / max * 100)%Q).
    assert (∀ c, (c <= ratio ↔ c * max <= 100 * current)%Q) as Hratio.
    { intros c. unfold ratio.
      assert (current / max * 100 * max == 100 * current)%Q as Hcancel.
      { field. intros Hz. rewrite Hz in Hmax. by apply Qlt_irrefl in Hmax. }
      rewrite <- Hcancel. symmetry. by apply Qmult_le_r. }
    unfold getProgressColor.
    assert (∀ c, (c <= 100)%Q → Qle_bool c (Qmin 100 ratio) = true ↔ (c <= ratio)%Q) as Hmin.
    { intros c Hc. rewrite Qle_bool_iff. split.
      - intros H. pose proof (Q.le_min_r 100 ratio). lra.
      - intros H. by apply Q.min_glb. }
    pose proof (Hmin 90%Q ltac:(done)) as H90. pose proof (Hmin 70%Q ltac:(done)) as H70.
    pose proof (Hmin 50%Q ltac:(done)) as H50.
    rewrite Hratio in H90, H70, H50.
    destruct (Qle_bool 90 _), (Qle_bool 70 _), (Qle_bool 50 _);
      repeat split; intros; try done; try lra;
      repeat match goal with
             | H : true = true ↔ _ |- _ => apply proj1 in H; specialize (H eq_refl)
             | H : false = true ↔ _ |- _ =>
                 apply proj2 in H;
                 let Hn := fresh in
                 assert (¬ _) as Hn by (intros Hn; by apply H in Hn); clear H
             end; try lra.
  - intros Hmax. unfold progress_bar_color, progress_percentage.
    rewrite (proj2 (Qltb_ge 0 max) Hmax). reflexivity.
Qed.

(** * Multiple-choice templates, continued *)

(** X26. The parameter-count template offers four different options: the
    number of parameters and the three distractors one below, one above and
    two above it.  For a function without parameters the first distractor is
    the negative count [-1]. *)
Theorem parameter_count_options (env : Collaborators) (node : CodeNode) (g : CallGraph) :
  ∃ t,
    mc_templates env node g !! 1%nat = Some t
    ∧ correct t = pretty (len (parameters node))
    ∧ distractors t = [pretty (len (parameters node) - 1); pretty (len (parameters node) + 1);
                       pretty (len (parameters node) + 2)]
    ∧ NoDup (correct t :: distractors t)
    ∧ (parameters node = [] → distractors t = ["-1"; "1"; "2"]).
Proof.
  eexists. split; [reflexivity |]. cbn [correct distractors map].
  split; [done |]. split; [done |]. split.
  - change (NoDup (pretty <$> [len (parameters node); len (parameters node) - 1;
                               len (parameters node) + 1; len (parameters node) + 2])).
    apply (NoDup_fmap_2 _).
    repeat (apply NoDup_cons_2; [rewrite ?elem_of_cons, elem_of_nil; lia |]).
    apply NoDup_nil_2.
  - intros Hp. rewrite Hp. reflexivity.
Qed.
